(** * The syscall hook layer of sylar (src/sylar/hook.cc)

    A shallow embedding of the hooked POSIX entry points: the generic
    [do_io] template, [connect_with_timeout], the sleep shims and the
    bookkeeping hooks ([socket], [close], [fcntl], [ioctl], [setsockopt]).

    The hooks run against three collaborators that hook.cc only calls: the
    kernel (through the [name_f] function pointers), the IOManager with its
    timers, and the fiber scheduler.  The embedding records every call the
    hooks make to them in a trace and takes their answers from a script, so
    that a statement such as "no system call is issued" is a statement about
    the trace. *)

From Stdlib Require Import ZArith Lia.
From stdpp Require Import base option gmap strings list.
Local Open Scope Z_scope.

(** ** Constants of the system headers (Linux, x86-64) *)

Definition EINTR : Z := 4.
Definition EBADF : Z := 9.
Definition EAGAIN : Z := 11.
Definition ETIMEDOUT : Z := 110.
Definition EINPROGRESS : Z := 115.

Definition O_NONBLOCK : Z := 2048.

Definition F_DUPFD : Z := 0.
Definition F_GETFD : Z := 1.
Definition F_SETFD : Z := 2.
Definition F_GETFL : Z := 3.
Definition F_SETFL : Z := 4.
Definition F_GETLK : Z := 5.
Definition F_SETLK : Z := 6.
Definition F_SETLKW : Z := 7.
Definition F_SETOWN : Z := 8.
Definition F_GETOWN : Z := 9.
Definition F_SETSIG : Z := 10.
Definition F_GETSIG : Z := 11.
Definition F_SETOWN_EX : Z := 15.
Definition F_GETOWN_EX : Z := 16.
Definition F_SETLEASE : Z := 1024.
Definition F_GETLEASE : Z := 1025.
Definition F_NOTIFY : Z := 1026.
Definition F_DUPFD_CLOEXEC : Z := 1030.
Definition F_SETPIPE_SZ : Z := 1031.
Definition F_GETPIPE_SZ : Z := 1032.

Definition FIONBIO : Z := 21537.

Definition SOL_SOCKET : Z := 1.
Definition SO_ERROR : Z := 4.
Definition SO_RCVTIMEO : Z := 20.
Definition SO_SNDTIMEO : Z := 21.

(** Fixed-width conversions: [uint64_t], [unsigned int] and [int]. *)

Definition to_u64 (z : Z) : Z := z mod 2 ^ 64.
Definition to_u32 (z : Z) : Z := z mod 2 ^ 32.
Definition to_i32 (z : Z) : Z := (z + 2 ^ 31) mod 2 ^ 32 - 2 ^ 31.

(** [(uint64_t)-1], the "no timeout" sentinel. *)
Definition u64_minus_one : Z := 2 ^ 64 - 1.

(** ** Data *)

(** [sylar::IOManager::Event], the direction of a registration. *)
Inductive Event := READ | WRITE.

Record timeval := { tv_sec : Z; tv_usec : Z }.

(** [struct timespec]; the fields are [tv_sec] and [tv_nsec] in C. *)
Record timespec := { req_tv_sec : Z; req_tv_nsec : Z }.

(** Modelled from the spec: the per-descriptor record [FdCtx] of
    fd_manager.h, which is not part of the sources at hand (spec section 3).
    The timeouts are [uint64_t] milliseconds, [u64_minus_one] meaning none. *)
Record FdCtx := {
  is_init : bool;
  is_socket : bool;
  sys_nonblock : bool;
  user_nonblock : bool;
  is_closed : bool;
  recv_timeout_ms : Z;
  send_timeout_ms : Z
}.

(** Modelled from the spec: the accessors of [FdCtx] that hook.cc calls. *)
Definition isClose (c : FdCtx) : bool := is_closed c.
Definition isSocket (c : FdCtx) : bool := is_socket c.
Definition getUserNonblock (c : FdCtx) : bool := user_nonblock c.
Definition getSysNonblock (c : FdCtx) : bool := sys_nonblock c.

Definition setUserNonblock (v : bool) (c : FdCtx) : FdCtx :=
  {| is_init := is_init c; is_socket := is_socket c;
     sys_nonblock := sys_nonblock c; user_nonblock := v;
     is_closed := is_closed c;
     recv_timeout_ms := recv_timeout_ms c;
     send_timeout_ms := send_timeout_ms c |}.

(** Modelled from the spec: [getTimeout] and [setTimeout] select the receive
    or the send timeout by the socket option they are given. *)
Definition getTimeout (type : Z) (c : FdCtx) : Z :=
  if type =? SO_RCVTIMEO then recv_timeout_ms c else send_timeout_ms c.

Definition setTimeout (type : Z) (v : Z) (c : FdCtx) : FdCtx :=
  {| is_init := is_init c; is_socket := is_socket c;
     sys_nonblock := sys_nonblock c; user_nonblock := user_nonblock c;
     is_closed := is_closed c;
     recv_timeout_ms := if type =? SO_RCVTIMEO then v else recv_timeout_ms c;
     send_timeout_ms := if type =? SO_RCVTIMEO then send_timeout_ms c else v |}.

(** The real functions behind the hooks ([HOOK_FUN]), applied to their
    arguments.  Pointers are carried as the word passed, except where a hook
    reads through them: [setsockopt_f] carries the [timeval] that [optval]
    designates, [nanosleep_f] the [timespec] behind [req], and [ioctl_f] the
    [int] behind its variadic argument.  [fstat_f] is the call that the
    initialisation of an [FdCtx] makes. *)
Inductive syscall :=
| sleep_f (seconds : Z)
| usleep_f (usec : Z)
| nanosleep_f (req : timespec) (rem : Z)
| socket_f (domain type protocol : Z)
| connect_f (fd addr addrlen : Z)
| accept_f (s addr addrlen : Z)
| read_f (fd buf count : Z)
| readv_f (fd iov iovcnt : Z)
| recv_f (sockfd buf len flags : Z)
| recvfrom_f (sockfd buf len flags src_addr addrlen : Z)
| recvmsg_f (sockfd msg flags : Z)
| write_f (fd buf count : Z)
| writev_f (fd iov iovcnt : Z)
| send_f (s msg len flags : Z)
| sendto_f (s msg len flags to tolen : Z)
| sendmsg_f (s msg flags : Z)
| close_f (fd : Z)
| fcntl_f (fd cmd : Z) (arg : option Z)
| ioctl_f (d request arg : Z)
| getsockopt_f (sockfd level optname optval optlen : Z)
| setsockopt_f (sockfd level optname : Z) (optval : timeval) (optlen : Z)
| fstat_f (fd : Z).

(** What the kernel answers to one call: the return value, the value it
    leaves in [errno] if it writes it, and the value it stores through the
    output pointer if it stores one ([SO_ERROR], [S_ISSOCK] of [fstat]). *)
Record kresp := { k_ret : Z; k_errno : option Z; k_out : option Z }.

(** The closures handed to the timers: the [schedule(fiber)] of the sleep
    shims and the two timeout lambdas, with what they capture. *)
Inductive callback :=
| CbSchedule
| CbIoTimeout (winfo : nat) (fd : Z) (event : Event)
| CbConnectTimeout (winfo : nat) (fd : Z).

(** Modelled from the spec: a timer of the IOManager, with the weak
    condition of a condition timer (spec sections 3 and 4.3). *)
Record Timer := { t_ms : Z; t_cb : callback; t_cond : option nat }.

(** The calls that the hooks make to their collaborators. *)
Inductive action :=
| ActSys (c : syscall)
| ActAddEvent (fd : Z) (ev : Event)
| ActCancelEvent (fd : Z) (ev : Event)
| ActCancelAll (fd : Z)
| ActAddTimer (t : nat) (ms : Z)
| ActAddConditionTimer (t : nat) (ms : Z) (cond : nat)
| ActTimerCancel (t : nat)
| ActSchedule
| ActYield
| ActLogError (who : string) (fd : Z).

(** The answers of the collaborators, in the order the hooks ask for them:
    the kernel's answer to a real call, the return value of [addEvent], and
    for a [yield] the timers that expire before the fiber is resumed. *)
Inductive answer :=
| AnsSys (r : kresp)
| AnsAddEvent (rt : Z)
| AnsWake (expired : list nat).

(** The state that the hooks read and write.  [FdMgr] is the process-wide
    table; [tinfos] holds the [timer_info] objects that are still owned by a
    [shared_ptr], so that [weak_ptr::lock] is a lookup; [timers] holds the
    timers that are armed; [iom] tells whether [IOManager::GetThis()] is
    non-null on this thread. *)
Record World := {
  t_hook_enable : bool;
  errno : Z;
  s_connect_timeout : Z;
  FdMgr : gmap Z FdCtx;
  iom : bool;
  tinfos : gmap nat Z;
  tinfo_next : nat;
  timers : gmap nat Timer;
  timer_next : nat;
  trace : list action;
  script : list answer
}.

Definition with_errno (e : Z) (w : World) : World :=
  {| t_hook_enable := t_hook_enable w; errno := e;
     s_connect_timeout := s_connect_timeout w; FdMgr := FdMgr w;
     iom := iom w; tinfos := tinfos w; tinfo_next := tinfo_next w;
     timers := timers w; timer_next := timer_next w;
     trace := trace w; script := script w |}.

Definition with_hook_enable (b : bool) (w : World) : World :=
  {| t_hook_enable := b; errno := errno w;
     s_connect_timeout := s_connect_timeout w; FdMgr := FdMgr w;
     iom := iom w; tinfos := tinfos w; tinfo_next := tinfo_next w;
     timers := timers w; timer_next := timer_next w;
     trace := trace w; script := script w |}.

Definition with_FdMgr (m : gmap Z FdCtx) (w : World) : World :=
  {| t_hook_enable := t_hook_enable w; errno := errno w;
     s_connect_timeout := s_connect_timeout w; FdMgr := m;
     iom := iom w; tinfos := tinfos w; tinfo_next := tinfo_next w;
     timers := timers w; timer_next := timer_next w;
     trace := trace w; script := script w |}.

Definition with_tinfos (m : gmap nat Z) (next : nat) (w : World) : World :=
  {| t_hook_enable := t_hook_enable w; errno := errno w;
     s_connect_timeout := s_connect_timeout w; FdMgr := FdMgr w;
     iom := iom w; tinfos := m; tinfo_next := next;
     timers := timers w; timer_next := timer_next w;
     trace := trace w; script := script w |}.

Definition with_timers (m : gmap nat Timer) (next : nat) (w : World) : World :=
  {| t_hook_enable := t_hook_enable w; errno := errno w;
     s_connect_timeout := s_connect_timeout w; FdMgr := FdMgr w;
     iom := iom w; tinfos := tinfos w; tinfo_next := tinfo_next w;
     timers := m; timer_next := next;
     trace := trace w; script := script w |}.

Definition with_trace (t : list action) (w : World) : World :=
  {| t_hook_enable := t_hook_enable w; errno := errno w;
     s_connect_timeout := s_connect_timeout w; FdMgr := FdMgr w;
     iom := iom w; tinfos := tinfos w; tinfo_next := tinfo_next w;
     timers := timers w; timer_next := timer_next w;
     trace := t; script := script w |}.

Definition with_script (s : list answer) (w : World) : World :=
  {| t_hook_enable := t_hook_enable w; errno := errno w;
     s_connect_timeout := s_connect_timeout w; FdMgr := FdMgr w;
     iom := iom w; tinfos := tinfos w; tinfo_next := tinfo_next w;
     timers := timers w; timer_next := timer_next w;
     trace := trace w; script := s |}.

(** Appending one call to the trace. *)
Definition emit (a : action) (w : World) : World :=
  with_trace (trace w ++ [a]) w.

(** ** The monad of the hooks

    A hook is a function of the world.  It yields [None] when the run is not
    determined: the script does not answer the next request, or the code
    goes through a null IOManager. *)

Definition M (A : Type) : Type := World → option (A * World).

Global Instance M_ret : MRet M := λ A a w, Some (a, w).
Global Instance M_bind : MBind M := λ A B f m w,
  match m w with
  | Some (a, w') => f a w'
  | None => None
  end.

Definition undetermined {A : Type} : M A := λ _, None.

Definition get_hook_enable : M bool := λ w, Some (t_hook_enable w, w).
Definition get_errno : M Z := λ w, Some (errno w, w).
Definition set_errno (e : Z) : M unit := λ w, Some (tt, with_errno e w).
Definition get_connect_timeout : M Z := λ w, Some (s_connect_timeout w, w).
Definition do_emit (a : action) : M unit := λ w, Some (tt, emit a w).

(** [sylar::is_hook_enable] and [sylar::set_hook_enable]. *)
Definition is_hook_enable : M bool := get_hook_enable.
Definition set_hook_enable (flag : bool) : M unit :=
  λ w, Some (tt, with_hook_enable flag w).

(** One call of a real function: it is recorded, the kernel's answer is
    taken from the script, and [errno] is written if the kernel writes it. *)
Definition sys (c : syscall) : M kresp := λ w,
  match script w with
  | AnsSys r :: rest =>
      let w1 := with_script rest (emit (ActSys c) w) in
      Some (r, match k_errno r with
               | Some e => with_errno e w1
               | None => w1
               end)
  | _ => None
  end.

(** A real function called for its return value. *)
Definition real (c : syscall) : M Z := r ← sys c; mret (k_ret r).

(** ** The table of descriptors *)

(** Modelled from the spec: [FdMgr::get(fd)] without [auto_create] is a
    lookup in the table, and [FdMgr::del(fd)] drops the entry (spec
    sections 3 and 4.1.5); fd_manager.cc is not part of the sources. *)
Definition FdMgr_get (fd : Z) : M (option FdCtx) :=
  λ w, Some (FdMgr w !! fd, w).

Definition FdMgr_del (fd : Z) : M unit :=
  λ w, Some (tt, with_FdMgr (delete fd (FdMgr w)) w).

(** A method called through the [FdCtx::ptr] of descriptor [fd] changes the
    object that the table holds for [fd]. *)
Definition FdCtx_update (fd : Z) (f : FdCtx → FdCtx) : M unit :=
  λ w, Some (tt, with_FdMgr (alter f fd (FdMgr w)) w).

(** Modelled from the spec: the lazy initialisation of a new [FdCtx] (spec
    section 4.2): [fstat] decides [is_socket]; a socket is switched to
    [O_NONBLOCK] on the kernel side; [user_nonblock] starts false and the
    timeouts start at -1. *)
Definition FdCtx_init (fd : Z) : M FdCtx :=
  st ← sys (fstat_f fd);
  let ok := negb (k_ret st =? -1) in
  let sock := ok && negb (default 0 (k_out st) =? 0) in
  (if sock
   then flags ← real (fcntl_f fd F_GETFL None);
        real (fcntl_f fd F_SETFL (Some (Z.lor flags O_NONBLOCK)));;
        mret tt
   else mret tt);;
  mret {| is_init := ok; is_socket := sock; sys_nonblock := sock;
          user_nonblock := false; is_closed := false;
          recv_timeout_ms := u64_minus_one;
          send_timeout_ms := u64_minus_one |}.

Definition FdMgr_install (fd : Z) (c : FdCtx) : M unit :=
  λ w, Some (tt, with_FdMgr (<[fd := c]> (FdMgr w)) w).

(** Modelled from the spec: [FdMgr::get(fd, true)] creates and installs the
    [FdCtx] on the first observation of [fd]. *)
Definition FdMgr_get_create (fd : Z) : M FdCtx :=
  o ← FdMgr_get fd;
  match o with
  | Some c => mret c
  | None =>
      c ← FdCtx_init fd;
      FdMgr_install fd c;;
      mret c
  end.

(** ** [timer_info] behind a [shared_ptr] and a [weak_ptr] *)

(** [std::shared_ptr<timer_info> tinfo(new timer_info)]: a fresh object with
    [cancelled = 0]. *)
Definition tinfo_new : M nat := λ w,
  let t := tinfo_next w in
  Some (t, with_tinfos (<[t := 0]> (tinfos w)) (S t) w).

(** The end of the scope of the only [shared_ptr]: the object is freed. *)
Definition tinfo_free (t : nat) : M unit := λ w,
  Some (tt, with_tinfos (delete t (tinfos w)) (tinfo_next w) w).

(** [winfo.lock()]: the [cancelled] field if the object is still alive. *)
Definition tinfo_lock (winfo : nat) : M (option Z) :=
  λ w, Some (tinfos w !! winfo, w).

(** [tinfo->cancelled], read through the owning pointer. *)
Definition tinfo_cancelled (t : nat) : M Z := λ w,
  match tinfos w !! t with
  | Some c => Some (c, w)
  | None => None
  end.

(** [t->cancelled = v]. *)
Definition tinfo_set_cancelled (t : nat) (v : Z) : M unit := λ w,
  Some (tt, with_tinfos (alter (λ _, v) t (tinfos w)) (tinfo_next w) w).

(** ** The IOManager, as the hooks use it *)

(** [IOManager::GetThis()] followed by a call through the pointer. *)
Definition IOManager_GetThis : M bool := λ w, Some (iom w, w).

Definition through_iom {A : Type} (m : M A) : M A :=
  p ← IOManager_GetThis;
  if (p : bool) then m else undetermined.

(** Modelled from the spec: [addTimer] and [addConditionTimer] arm a timer
    and return its handle (spec section 4.3). *)
Definition addTimer (ms : Z) (cb : callback) : M nat :=
  through_iom (λ w : World,
    let t := timer_next w in
    Some (t, emit (ActAddTimer t ms)
               (with_timers (<[t := {| t_ms := ms; t_cb := cb;
                                       t_cond := None |}]> (timers w))
                            (S t) w))).

Definition addConditionTimer (ms : Z) (cb : callback) (cond : nat) : M nat :=
  through_iom (λ w : World,
    let t := timer_next w in
    Some (t, emit (ActAddConditionTimer t ms cond)
               (with_timers (<[t := {| t_ms := ms; t_cb := cb;
                                       t_cond := Some cond |}]> (timers w))
                            (S t) w))).

(** Modelled from the spec: [timer->cancel()] disarms the timer; cancelling
    a timer that is no longer armed changes nothing. *)
Definition Timer_cancel (t : nat) : M unit := λ w,
  Some (tt, emit (ActTimerCancel t)
              (with_timers (delete t (timers w)) (timer_next w) w)).

(** [if(timer) timer->cancel()]. *)
Definition cancel_if_armed (timer : option nat) : M unit :=
  match timer with
  | Some t => Timer_cancel t
  | None => mret tt
  end.

(** [iom->addEvent(fd, event)]: the return value is the IOManager's. *)
Definition addEvent (fd : Z) (ev : Event) : M Z :=
  through_iom (λ w : World,
    match script w with
    | AnsAddEvent rt :: rest =>
        Some (rt, with_script rest (emit (ActAddEvent fd ev) w))
    | _ => None
    end).

(** [iom->cancelEvent(fd, event)], through the pointer that the timeout
    lambdas capture. *)
Definition cancelEvent (fd : Z) (ev : Event) : M unit :=
  do_emit (ActCancelEvent fd ev).

(** [iom->cancelAll(fd)]. *)
Definition cancelAll (fd : Z) : M unit := do_emit (ActCancelAll fd).

(** [SYLAR_LOG_ERROR(g_logger) << ...]. *)
Definition log_error (who : string) (fd : Z) : M unit :=
  do_emit (ActLogError who fd).

(** ** The timeout lambdas *)

(** The lambda that [do_io] hands to [addConditionTimer]. *)
Definition do_io_timeout_cb (winfo : nat) (fd : Z) (event : Event) : M unit :=
  t ← tinfo_lock winfo;
  match t with
  | None => mret tt
  | Some cancelled =>
      if negb (cancelled =? 0) then mret tt
      else tinfo_set_cancelled winfo ETIMEDOUT;;
           cancelEvent fd event
  end.

(** The lambda that [connect_with_timeout] hands to [addConditionTimer]. *)
Definition connect_timeout_cb (winfo : nat) (fd : Z) : M unit :=
  t ← tinfo_lock winfo;
  match t with
  | None => mret tt
  | Some cancelled =>
      if negb (cancelled =? 0) then mret tt
      else tinfo_set_cancelled winfo ETIMEDOUT;;
           cancelEvent fd WRITE
  end.

Definition run_callback (cb : callback) : M unit :=
  match cb with
  | CbSchedule => do_emit ActSchedule
  | CbIoTimeout winfo fd event => do_io_timeout_cb winfo fd event
  | CbConnectTimeout winfo fd => connect_timeout_cb winfo fd
  end.

(** Modelled from the spec: the expiry of timer [t] in the IOManager.  An
    armed timer is removed and its callback runs; a condition timer runs it
    only if its weak condition still upgrades (spec sections 3 and 4.3). *)
Definition Timer_expire (t : nat) : M unit := λ w,
  match timers w !! t with
  | None => Some (tt, w)
  | Some tm =>
      let w1 := with_timers (delete t (timers w)) (timer_next w) w in
      match t_cond tm with
      | None => run_callback (t_cb tm) w1
      | Some c =>
          match tinfos w1 !! c with
          | Some _ => run_callback (t_cb tm) w1
          | None => Some (tt, w1)
          end
      end
  end.

Fixpoint Timers_expire (ts : list nat) : M unit :=
  match ts with
  | [] => mret tt
  | t :: ts' => Timer_expire t;; Timers_expire ts'
  end.

(** Modelled from the spec: [Fiber::GetThis()->yield()] suspends the fiber
    until it is scheduled again (spec section 4.4).  What the fiber can see
    of the suspension is the set of timers that expired meanwhile. *)
Definition yield : M unit := λ w,
  match script w with
  | AnsWake ts :: rest =>
      Timers_expire ts (with_script rest (emit ActYield w))
  | _ => None
  end.

(** ** The generic template [do_io] *)

(** The number of answers left in the script bounds the number of real
    calls that a run can still make; the loops below recurse on it. *)
Definition answers_left : M nat := λ w, Some (length (script w), w).

(** [while(n == -1 && errno == EINTR) n = fun(fd, args...)]. *)
Fixpoint do_io_eintr (fuel : nat) (fn : syscall) (n : Z) : M Z :=
  e ← get_errno;
  if (n =? -1) && ((e : Z) =? EINTR) then
    match fuel with
    | O => undetermined
    | S fuel' => n' ← real fn; do_io_eintr fuel' fn n'
    end
  else mret n.

(** [if(to != (uint64_t)-1) timer = iom->addConditionTimer(to, cb, winfo)],
    as both [do_io] and [connect_with_timeout] have it. *)
Definition arm_condition_timer (to : Z) (cb : callback) (tinfo : nat)
  : M (option nat) :=
  if negb (to =? u64_minus_one)
  then t ← addConditionTimer to cb tinfo;
       mret (Some t)
  else mret None.

Definition do_io_arm (to : Z) (tinfo : nat) (fd : Z) (event : Event)
  : M (option nat) :=
  arm_condition_timer to (CbIoTimeout tinfo fd event) tinfo.

(** What [do_io] does once [yield] has returned; [retry] stands for the
    code at the label [retry]. *)
Definition do_io_resume (retry : M Z) (timer : option nat) (tinfo : nat)
  : M Z :=
  cancel_if_armed timer;;
  c ← tinfo_cancelled tinfo;
  if negb ((c : Z) =? 0) then set_errno c;; mret (-1) else retry.

(** Modelled from the spec: [SYLAR_UNLIKELY(x)] of macro.h, which is not
    part of the sources: a branch hint around the truth value of [x].  The
    registration has failed when [addEvent] returns non-zero (spec section
    4.1.4). *)
Definition SYLAR_UNLIKELY (x : Z) : bool := negb (x =? 0).

(** What [do_io] does with the result [n] of the real function once the
    [EINTR] loop is over: the [EAGAIN] branch, or [return n]. *)
Definition do_io_settle (retry : M Z) (fd : Z) (hook_fun_name : string)
    (event : Event) (to : Z) (tinfo : nat) (n : Z) : M Z :=
  e ← get_errno;
  if (n =? -1) && ((e : Z) =? EAGAIN) then
    timer ← do_io_arm to tinfo fd event;
    rt ← addEvent fd event;
    if SYLAR_UNLIKELY rt then
      log_error hook_fun_name fd;;
      cancel_if_armed timer;;
      mret (-1)
    else
      yield;;
      do_io_resume retry timer tinfo
  else mret n.

(** The call at the label [retry] and the [EINTR] loop after it. *)
Definition do_io_call (fuel : nat) (fn : syscall) : M Z :=
  n ← real fn;
  do_io_eintr fuel fn n.

(** [do_io] from the label [retry] on. *)
Fixpoint do_io_retry (fuel : nat) (fd : Z) (fn : syscall)
    (hook_fun_name : string) (event : Event) (to : Z) (tinfo : nat) : M Z :=
  match fuel with
  | O => undetermined
  | S fuel' =>
      n ← do_io_call fuel' fn;
      do_io_settle (do_io_retry fuel' fd fn hook_fun_name event to tinfo)
        fd hook_fun_name event to tinfo n
  end.

(** [do_io(fd, fun, hook_fun_name, event, timeout_so, args...)]; [fn fd] is
    [fun(fd, args...)].  The [timer_info] is freed when the function
    returns, with the [shared_ptr] that owns it. *)
Definition do_io (fd : Z) (fn : Z → syscall) (hook_fun_name : string)
    (event : Event) (timeout_so : Z) : M Z :=
  en ← get_hook_enable;
  if negb en then real (fn fd)
  else
    ctx ← FdMgr_get fd;
    match ctx with
    | None => real (fn fd)
    | Some ctx =>
        if isClose ctx then set_errno EBADF;; mret (-1)
        else if negb (isSocket ctx) || getUserNonblock ctx then real (fn fd)
        else
          let to := getTimeout timeout_so ctx in
          tinfo ← tinfo_new;
          fuel ← answers_left;
          n ← do_io_retry (S fuel) fd (fn fd) hook_fun_name event to tinfo;
          tinfo_free tinfo;;
          mret n
    end.

(** ** The hooked entry points *)

Definition sleep (seconds : Z) : M Z :=
  en ← get_hook_enable;
  if negb en then real (sleep_f seconds)
  else
    addTimer (to_u32 (seconds * 1000)) CbSchedule;;
    yield;;
    mret 0.

Definition usleep (usec : Z) : M Z :=
  en ← get_hook_enable;
  if negb en then real (usleep_f usec)
  else
    addTimer (usec ÷ 1000) CbSchedule;;
    yield;;
    mret 0.

Definition nanosleep (req : timespec) (rem : Z) : M Z :=
  en ← get_hook_enable;
  if negb en then real (nanosleep_f req rem)
  else
    let timeout_ms :=
      to_i32 (req_tv_sec req * 1000 + req_tv_nsec req ÷ 1000 ÷ 1000) in
    addTimer (to_u64 timeout_ms) CbSchedule;;
    yield;;
    mret 0.

Definition socket (domain type protocol : Z) : M Z :=
  en ← get_hook_enable;
  if negb en then real (socket_f domain type protocol)
  else
    fd ← real (socket_f domain type protocol);
    if (fd : Z) =? -1 then mret fd
    else FdMgr_get_create fd;; mret fd.

(** [getsockopt] is a plain call of the real function; [getsockopt_out]
    also gives what the kernel stored through [optval]. *)
Definition getsockopt_out (sockfd level optname optval optlen : Z) : M kresp :=
  sys (getsockopt_f sockfd level optname optval optlen).

Definition getsockopt (sockfd level optname optval optlen : Z) : M Z :=
  r ← getsockopt_out sockfd level optname optval optlen;
  mret (k_ret r).

(** The end of [connect_with_timeout]: [SO_ERROR] decides.  The addresses
    of the locals [error] and [len] are not modelled and passed as 0. *)
Definition connect_so_error (fd : Z) : M Z :=
  r ← getsockopt_out fd SOL_SOCKET SO_ERROR 0 0;
  let error := default 0 (k_out r) in
  if k_ret r =? -1 then mret (-1)
  else if error =? 0 then mret 0
  else set_errno error;; mret (-1).

(** [connect_with_timeout] once the real [connect] has answered
    [EINPROGRESS]. *)
Definition connect_wait (fd : Z) (timeout_ms : Z) (tinfo : nat) : M Z :=
  timer ← arm_condition_timer timeout_ms (CbConnectTimeout tinfo fd) tinfo;
  rt ← addEvent fd WRITE;
  if (rt : Z) =? 0 then
    yield;;
    cancel_if_armed timer;;
    c ← tinfo_cancelled tinfo;
    if negb ((c : Z) =? 0) then set_errno c;; mret (-1)
    else connect_so_error fd
  else
    cancel_if_armed timer;;
    log_error "connect" fd;;
    connect_so_error fd.

Definition connect_with_timeout (fd addr addrlen timeout_ms : Z) : M Z :=
  en ← get_hook_enable;
  if negb en then real (connect_f fd addr addrlen)
  else
    ctx ← FdMgr_get fd;
    match ctx with
    | None => set_errno EBADF;; mret (-1)
    | Some ctx =>
        if isClose ctx then set_errno EBADF;; mret (-1)
        else if negb (isSocket ctx) then real (connect_f fd addr addrlen)
        else if getUserNonblock ctx then real (connect_f fd addr addrlen)
        else
          n ← real (connect_f fd addr addrlen);
          e ← get_errno;
          if (n : Z) =? 0 then mret 0
          else if negb (n =? -1) || negb ((e : Z) =? EINPROGRESS) then mret n
          else
            tinfo ← tinfo_new;
            r ← connect_wait fd timeout_ms tinfo;
            tinfo_free tinfo;;
            mret r
    end.

Definition connect (sockfd addr addrlen : Z) : M Z :=
  to ← get_connect_timeout;
  connect_with_timeout sockfd addr addrlen to.

Definition accept (s addr addrlen : Z) : M Z :=
  n ← do_io s (λ s, accept_f s addr addrlen) "accept" READ SO_RCVTIMEO;
  let fd := to_i32 n in
  (if 0 <=? fd then FdMgr_get_create fd;; mret tt else mret tt);;
  mret fd.

Definition read (fd buf count : Z) : M Z :=
  do_io fd (λ fd, read_f fd buf count) "read" READ SO_RCVTIMEO.

Definition readv (fd iov iovcnt : Z) : M Z :=
  do_io fd (λ fd, readv_f fd iov iovcnt) "readv" READ SO_RCVTIMEO.

Definition recv (sockfd buf len flags : Z) : M Z :=
  do_io sockfd (λ fd, recv_f fd buf len flags) "recv" READ SO_RCVTIMEO.

Definition recvfrom (sockfd buf len flags src_addr addrlen : Z) : M Z :=
  do_io sockfd (λ fd, recvfrom_f fd buf len flags src_addr addrlen)
        "recvfrom" READ SO_RCVTIMEO.

Definition recvmsg (sockfd msg flags : Z) : M Z :=
  do_io sockfd (λ fd, recvmsg_f fd msg flags) "recvmsg" READ SO_RCVTIMEO.

Definition write (fd buf count : Z) : M Z :=
  do_io fd (λ fd, write_f fd buf count) "write" WRITE SO_SNDTIMEO.

Definition writev (fd iov iovcnt : Z) : M Z :=
  do_io fd (λ fd, writev_f fd iov iovcnt) "writev" WRITE SO_SNDTIMEO.

Definition send (s msg len flags : Z) : M Z :=
  do_io s (λ fd, send_f fd msg len flags) "send" WRITE SO_SNDTIMEO.

Definition sendto (s msg len flags to tolen : Z) : M Z :=
  do_io s (λ fd, sendto_f fd msg len flags to tolen)
        "sendto" WRITE SO_SNDTIMEO.

Definition sendmsg (s msg flags : Z) : M Z :=
  do_io s (λ fd, sendmsg_f fd msg flags) "sendmsg" WRITE SO_SNDTIMEO.

Definition close (fd : Z) : M Z :=
  en ← get_hook_enable;
  if negb en then real (close_f fd)
  else
    ctx ← FdMgr_get fd;
    match ctx with
    | Some _ =>
        p ← IOManager_GetThis;
        (if (p : bool) then cancelAll fd else mret tt);;
        FdMgr_del fd
    | None => mret tt
    end;;
    real (close_f fd).

(** The command families of [fcntl], by the shape of the variadic
    argument. *)
Definition fcntl_int_arg (cmd : Z) : bool :=
  (cmd =? F_DUPFD) || (cmd =? F_DUPFD_CLOEXEC) || (cmd =? F_SETFD)
  || (cmd =? F_SETOWN) || (cmd =? F_SETSIG) || (cmd =? F_SETLEASE)
  || (cmd =? F_NOTIFY) || (cmd =? F_SETPIPE_SZ).

Definition fcntl_no_arg (cmd : Z) : bool :=
  (cmd =? F_GETFD) || (cmd =? F_GETOWN) || (cmd =? F_GETSIG)
  || (cmd =? F_GETLEASE) || (cmd =? F_GETPIPE_SZ).

Definition fcntl_flock_arg (cmd : Z) : bool :=
  (cmd =? F_SETLK) || (cmd =? F_SETLKW) || (cmd =? F_GETLK).

Definition fcntl_owner_arg (cmd : Z) : bool :=
  (cmd =? F_GETOWN_EX) || (cmd =? F_SETOWN_EX).

(** [fcntl(fd, cmd, ...)]; [va] is the word in the variadic slot. *)
Definition fcntl (fd cmd va : Z) : M Z :=
  if cmd =? F_SETFL then
    let arg := va in
    ctx ← FdMgr_get fd;
    match ctx with
    | None => real (fcntl_f fd cmd (Some arg))
    | Some ctx =>
        if isClose ctx || negb (isSocket ctx)
        then real (fcntl_f fd cmd (Some arg))
        else
          FdCtx_update fd
            (setUserNonblock (negb (Z.land arg O_NONBLOCK =? 0)));;
          let arg := if getSysNonblock ctx
                     then Z.lor arg O_NONBLOCK
                     else Z.land arg (Z.lnot O_NONBLOCK) in
          real (fcntl_f fd cmd (Some arg))
    end
  else if cmd =? F_GETFL then
    arg ← real (fcntl_f fd cmd None);
    ctx ← FdMgr_get fd;
    match ctx with
    | None => mret arg
    | Some ctx =>
        if isClose ctx || negb (isSocket ctx) then mret arg
        else if getUserNonblock ctx then mret (Z.lor arg O_NONBLOCK)
        else mret (Z.land arg (Z.lnot O_NONBLOCK))
    end
  else if fcntl_int_arg cmd then real (fcntl_f fd cmd (Some va))
  else if fcntl_no_arg cmd then real (fcntl_f fd cmd None)
  else if fcntl_flock_arg cmd then real (fcntl_f fd cmd (Some va))
  else if fcntl_owner_arg cmd then real (fcntl_f fd cmd (Some va))
  else real (fcntl_f fd cmd None).

(** [ioctl(d, request, ...)]; [arg] is the [int] that the variadic pointer
    designates. *)
Definition ioctl (d request arg : Z) : M Z :=
  if request =? FIONBIO then
    let user_nonblock := negb (arg =? 0) in
    ctx ← FdMgr_get d;
    match ctx with
    | None => real (ioctl_f d request arg)
    | Some ctx =>
        if isClose ctx || negb (isSocket ctx)
        then real (ioctl_f d request arg)
        else
          FdCtx_update d (setUserNonblock user_nonblock);;
          real (ioctl_f d request arg)
    end
  else real (ioctl_f d request arg).

(** [v->tv_sec * 1000 + v->tv_usec / 1000], as the [uint64_t] that
    [setTimeout] receives. *)
Definition timeval_ms (v : timeval) : Z :=
  to_u64 (tv_sec v * 1000 + tv_usec v ÷ 1000).

Definition setsockopt (sockfd level optname : Z) (optval : timeval)
    (optlen : Z) : M Z :=
  en ← get_hook_enable;
  if negb en then real (setsockopt_f sockfd level optname optval optlen)
  else
    (if level =? SOL_SOCKET then
       if (optname =? SO_RCVTIMEO) || (optname =? SO_SNDTIMEO) then
         ctx ← FdMgr_get sockfd;
         match ctx with
         | Some _ =>
             FdCtx_update sockfd (setTimeout optname (timeval_ms optval))
         | None => mret tt
         end
       else mret tt
     else mret tt);;
    real (setsockopt_f sockfd level optname optval optlen).

(** ** The intercepted set

    One constructor for each name of [HOOK_FUN], with the arguments of the
    call. *)
Inductive hook_call :=
| call_sleep (seconds : Z)
| call_usleep (usec : Z)
| call_nanosleep (req : timespec) (rem : Z)
| call_socket (domain type protocol : Z)
| call_connect (sockfd addr addrlen : Z)
| call_accept (s addr addrlen : Z)
| call_read (fd buf count : Z)
| call_readv (fd iov iovcnt : Z)
| call_recv (sockfd buf len flags : Z)
| call_recvfrom (sockfd buf len flags src_addr addrlen : Z)
| call_recvmsg (sockfd msg flags : Z)
| call_write (fd buf count : Z)
| call_writev (fd iov iovcnt : Z)
| call_send (s msg len flags : Z)
| call_sendto (s msg len flags to tolen : Z)
| call_sendmsg (s msg flags : Z)
| call_close (fd : Z)
| call_fcntl (fd cmd va : Z)
| call_ioctl (d request arg : Z)
| call_getsockopt (sockfd level optname optval optlen : Z)
| call_setsockopt (sockfd level optname : Z) (optval : timeval) (optlen : Z).

(** The hook that a call enters. *)
Definition hooked (c : hook_call) : M Z :=
  match c with
  | call_sleep seconds => sleep seconds
  | call_usleep usec => usleep usec
  | call_nanosleep req rem => nanosleep req rem
  | call_socket domain type protocol => socket domain type protocol
  | call_connect sockfd addr addrlen => connect sockfd addr addrlen
  | call_accept s addr addrlen => accept s addr addrlen
  | call_read fd buf count => read fd buf count
  | call_readv fd iov iovcnt => readv fd iov iovcnt
  | call_recv sockfd buf len flags => recv sockfd buf len flags
  | call_recvfrom sockfd buf len flags src_addr addrlen =>
      recvfrom sockfd buf len flags src_addr addrlen
  | call_recvmsg sockfd msg flags => recvmsg sockfd msg flags
  | call_write fd buf count => write fd buf count
  | call_writev fd iov iovcnt => writev fd iov iovcnt
  | call_send s msg len flags => send s msg len flags
  | call_sendto s msg len flags to tolen => sendto s msg len flags to tolen
  | call_sendmsg s msg flags => sendmsg s msg flags
  | call_close fd => close fd
  | call_fcntl fd cmd va => fcntl fd cmd va
  | call_ioctl d request arg => ioctl d request arg
  | call_getsockopt sockfd level optname optval optlen =>
      getsockopt sockfd level optname optval optlen
  | call_setsockopt sockfd level optname optval optlen =>
      setsockopt sockfd level optname optval optlen
  end.

(** The real function with the caller's own arguments: what a hook that
    only falls through calls. *)
Definition fallthrough (c : hook_call) : syscall :=
  match c with
  | call_sleep seconds => sleep_f seconds
  | call_usleep usec => usleep_f usec
  | call_nanosleep req rem => nanosleep_f req rem
  | call_socket domain type protocol => socket_f domain type protocol
  | call_connect sockfd addr addrlen => connect_f sockfd addr addrlen
  | call_accept s addr addrlen => accept_f s addr addrlen
  | call_read fd buf count => read_f fd buf count
  | call_readv fd iov iovcnt => readv_f fd iov iovcnt
  | call_recv sockfd buf len flags => recv_f sockfd buf len flags
  | call_recvfrom sockfd buf len flags src_addr addrlen =>
      recvfrom_f sockfd buf len flags src_addr addrlen
  | call_recvmsg sockfd msg flags => recvmsg_f sockfd msg flags
  | call_write fd buf count => write_f fd buf count
  | call_writev fd iov iovcnt => writev_f fd iov iovcnt
  | call_send s msg len flags => send_f s msg len flags
  | call_sendto s msg len flags to tolen => sendto_f s msg len flags to tolen
  | call_sendmsg s msg flags => sendmsg_f s msg flags
  | call_close fd => close_f fd
  | call_fcntl fd cmd va =>
      fcntl_f fd cmd
        (if (cmd =? F_SETFL) || fcntl_int_arg cmd || fcntl_flock_arg cmd
            || fcntl_owner_arg cmd
         then Some va else None)
  | call_ioctl d request arg => ioctl_f d request arg
  | call_getsockopt sockfd level optname optval optlen =>
      getsockopt_f sockfd level optname optval optlen
  | call_setsockopt sockfd level optname optval optlen =>
      setsockopt_f sockfd level optname optval optlen
  end.

(** The entry points that test [t_hook_enable] before anything else, and
    [getsockopt], which never does anything but call the real function. *)
Definition tests_hook_enable (c : hook_call) : bool :=
  match c with
  | call_accept _ _ _ | call_fcntl _ _ _ | call_ioctl _ _ _ => false
  | _ => true
  end.

(** ** Sample descriptors, worlds and answers *)

Definition live_socket : FdCtx :=
  {| is_init := true; is_socket := true; sys_nonblock := true;
     user_nonblock := false; is_closed := false;
     recv_timeout_ms := 100; send_timeout_ms := u64_minus_one |}.

Definition closed_socket : FdCtx :=
  {| is_init := true; is_socket := true; sys_nonblock := true;
     user_nonblock := false; is_closed := true;
     recv_timeout_ms := 100; send_timeout_ms := u64_minus_one |}.

Definition plain_file : FdCtx :=
  {| is_init := true; is_socket := false; sys_nonblock := false;
     user_nonblock := false; is_closed := false;
     recv_timeout_ms := u64_minus_one; send_timeout_ms := u64_minus_one |}.

Definition nonblocking_socket : FdCtx := setUserNonblock true live_socket.

(** A hook-enabled thread of an IOManager, with the given table and the
    given script. *)
Definition sample_world (m : gmap Z FdCtx) (s : list answer) : World :=
  {| t_hook_enable := true; errno := 0; s_connect_timeout := 5000;
     FdMgr := m; iom := true; tinfos := ∅; tinfo_next := 0;
     timers := ∅; timer_next := 0; trace := []; script := s |}.

Definition answer_ok (n : Z) : answer :=
  AnsSys {| k_ret := n; k_errno := None; k_out := None |}.

Definition answer_err (e : Z) : answer :=
  AnsSys {| k_ret := -1; k_errno := Some e; k_out := None |}.

(** The world after [if(timer) timer->cancel()]. *)
Definition disarmed (timer : option nat) (w : World) : World :=
  match timer with
  | Some t =>
      emit (ActTimerCancel t)
        (with_timers (delete t (timers w)) (timer_next w) w)
  | None => w
  end.

(** The handle and the world after
    [if(to != (uint64_t)-1) timer = iom->addConditionTimer(to, cb, winfo)]
    on a thread that has an IOManager. *)
Definition armed (to : Z) (cb : callback) (tinfo : nat) (w : World)
  : option nat * World :=
  if to =? u64_minus_one then (None, w)
  else
    let t := timer_next w in
    (Some t,
     emit (ActAddConditionTimer t to tinfo)
       (with_timers (<[t := {| t_ms := to; t_cb := cb;
                               t_cond := Some tinfo |}]> (timers w))
                    (S t) w)).

(** The world after [k] answers of [EINTR] and the answer [r] to the real
    function [fn], [rest] being what is left of the script. *)
Definition after_calls (fn : syscall) (k : nat) (r : kresp)
    (rest : list answer) (w : World) : World :=
  let w1 :=
    with_script rest (with_trace (trace w ++ repeat (ActSys fn) (S k)) w) in
  match k_errno r with
  | Some e => with_errno e w1
  | None =>
      match k with
      | O => w1
      | S _ => with_errno EINTR w1
      end
  end.

(** The [EAGAIN] branch of [do_io] up to the return of [yield], for a
    registration that succeeds. *)
Definition do_io_until_resumed (fd : Z) (event : Event) (to : Z)
    (tinfo : nat) : M (option nat) :=
  timer ← do_io_arm to tinfo fd event;
  addEvent fd event;;
  yield;;
  mret timer.

(** An answer of the kernel that makes the [EINTR] loop go round again,
    and one that ends it. *)
Definition eintr_answer (a : kresp) : Prop :=
  k_ret a = -1 ∧ k_errno a = Some EINTR.

Definition settled_answer (r : kresp) : Prop :=
  k_ret r ≠ -1 ∨ ∃ e, k_errno r = Some e ∧ e ≠ EINTR.

(** An answer that does not send [do_io] into the [EAGAIN] branch. *)
Definition ready_answer (r : kresp) : Prop :=
  k_ret r ≠ -1 ∨ ∃ e, k_errno r = Some e ∧ e ≠ EAGAIN.

(** What the expiry of timers during a suspension preserves: a
    [timer_info] that is alive stays alive, and the callbacks touch neither
    the script, nor [errno], nor the table of descriptors. *)
Definition resumes_from (t : nat) (w w' : World) : Prop :=
  (∀ c, tinfos w !! t = Some c → ∃ c', tinfos w' !! t = Some c')
  ∧ iom w' = iom w ∧ script w' = script w ∧ errno w' = errno w
  ∧ FdMgr w' = FdMgr w ∧ t_hook_enable w' = t_hook_enable w.

(** ** Vocabulary of the further properties *)

(** An answer of the kernel that sends [do_io] into the [EAGAIN] branch,
    and one that ends the call: neither [EINTR] nor [EAGAIN]. *)
Definition eagain_answer (a : kresp) : Prop :=
  k_ret a = -1 ∧ k_errno a = Some EAGAIN.

Definition final_answer (r : kresp) : Prop :=
  k_ret r ≠ -1 ∨ ∃ e, k_errno r = Some e ∧ e ≠ EINTR ∧ e ≠ EAGAIN.

(** What a hook leaves as it found it, the timer [T] apart: the table of
    descriptors, the hook flag, the connect timeout, the IOManager, the set
    of armed timers (it may only shrink) and the set of live [timer_info]
    objects. *)
Definition keeps_but (T : option nat) (w w' : World) : Prop :=
  FdMgr w' = FdMgr w
  ∧ t_hook_enable w' = t_hook_enable w
  ∧ s_connect_timeout w' = s_connect_timeout w
  ∧ iom w' = iom w
  ∧ (∀ k x, timers w' !! k = Some x → Some k = T ∨ timers w !! k = Some x)
  ∧ (∀ k, is_Some (tinfos w' !! k) ↔ is_Some (tinfos w !! k)).

(** The script of [k] rounds in which the real function answers [EAGAIN],
    the event is registered and the fiber is woken by readiness, no timer
    having expired. *)
Definition eagain_rounds (rounds : list kresp) : list answer :=
  flat_map (λ a, [AnsSys a; AnsAddEvent 0; AnsWake []]) rounds.

(** The calls that [do_io] makes in [k] such rounds, [t] being the next
    timer handle. *)
Fixpoint rounds_trace (fn : syscall) (fd : Z) (event : Event) (to : Z)
    (tinfo : nat) (t : nat) (k : nat) : list action :=
  match k with
  | O => []
  | S k' =>
      if to =? u64_minus_one
      then [ActSys fn; ActAddEvent fd event; ActYield]
           ++ rounds_trace fn fd event to tinfo t k'
      else [ActSys fn; ActAddConditionTimer t to tinfo; ActAddEvent fd event;
            ActYield; ActTimerCancel t]
           ++ rounds_trace fn fd event to tinfo (S t) k'
  end.

(** The answer of the real [connect] that makes [connect_with_timeout]
    wait, and one that it returns at once. *)
Definition in_progress_answer (a : kresp) : Prop :=
  k_ret a = -1 ∧ k_errno a = Some EINPROGRESS.

Definition immediate_answer (r : kresp) : Prop :=
  k_ret r ≠ -1 ∨ ∃ e, k_errno r = Some e ∧ e ≠ EINPROGRESS.

(** What the end of [connect_with_timeout] makes of the answer to
    [getsockopt(SO_ERROR)]. *)
Definition so_error_result (s : kresp) : Z :=
  if k_ret s =? -1 then -1
  else if default 0 (k_out s) =? 0 then 0 else -1.

(** No residue: the hook leaves the table of descriptors, the hook flag,
    the connect timeout and the IOManager as they were, arms no timer that
    stays armed and allocates no [timer_info] that stays alive. *)
Definition leaves_clean (w w' : World) : Prop :=
  FdMgr w' = FdMgr w
  ∧ t_hook_enable w' = t_hook_enable w
  ∧ s_connect_timeout w' = s_connect_timeout w
  ∧ iom w' = iom w
  ∧ (∀ k x, timers w' !! k = Some x → timers w !! k = Some x)
  ∧ (∀ k, is_Some (tinfos w' !! k) → is_Some (tinfos w !! k)).

(** The hooks that may suspend the fiber on a descriptor and that do not
    create descriptors: [connect] and the wrappers of [do_io] other than
    [accept]. *)
Definition blocking_io_call (c : hook_call) : bool :=
  match c with
  | call_connect _ _ _
  | call_read _ _ _ | call_readv _ _ _ | call_recv _ _ _ _
  | call_recvfrom _ _ _ _ _ _ | call_recvmsg _ _ _
  | call_write _ _ _ | call_writev _ _ _ | call_send _ _ _ _
  | call_sendto _ _ _ _ _ _ | call_sendmsg _ _ _ => true
  | _ => false
  end.


(** The descriptor that a call names, if it names one. *)
Definition hook_fd (c : hook_call) : option Z :=
  match c with
  | call_sleep _ | call_usleep _ | call_nanosleep _ _
  | call_socket _ _ _ => None
  | call_connect fd _ _ | call_accept fd _ _
  | call_read fd _ _ | call_readv fd _ _ | call_recv fd _ _ _
  | call_recvfrom fd _ _ _ _ _ | call_recvmsg fd _ _
  | call_write fd _ _ | call_writev fd _ _ | call_send fd _ _ _
  | call_sendto fd _ _ _ _ _ | call_sendmsg fd _ _
  | call_close fd | call_fcntl fd _ _ | call_ioctl fd _ _
  | call_getsockopt fd _ _ _ _ | call_setsockopt fd _ _ _ _ => Some fd
  end.

(** The thread's settings are kept, and so is the [FdCtx] of every
    descriptor outside [D]. *)
Definition frame (D : Z → Prop) (w w' : World) : Prop :=
  t_hook_enable w' = t_hook_enable w
  ∧ s_connect_timeout w' = s_connect_timeout w
  ∧ iom w' = iom w
  ∧ ∀ fd, ¬ D fd → FdMgr w' !! fd = FdMgr w !! fd.

(** ** Reasoning support *)

Ltac run_hook :=
  unfold mbind, M_bind, mret, M_ret, get_hook_enable, get_errno, set_errno,
    get_connect_timeout, FdMgr_get, FdMgr_del, FdCtx_update, do_emit,
    tinfo_lock, tinfo_set_cancelled, cancelEvent, cancelAll, log_error,
    IOManager_GetThis; cbn.

Lemma do_io_retry_unfold fuel fd fn name ev to tinfo :
  do_io_retry (S fuel) fd fn name ev to tinfo
  = (n ← do_io_call fuel fn;
     do_io_settle (do_io_retry fuel fd fn name ev to tinfo)
       fd name ev to tinfo n).
Proof. reflexivity. Qed.

Lemma do_io_retry_after_call fuel fd fn name ev to tinfo w n w1 :
  do_io_call fuel fn w = Some (n, w1) →
  do_io_retry (S fuel) fd fn name ev to tinfo w
  = do_io_settle (do_io_retry fuel fd fn name ev to tinfo)
      fd name ev to tinfo n w1.
Proof.
  intros Hcall. rewrite do_io_retry_unfold. unfold mbind, M_bind.
  rewrite Hcall. reflexivity.
Qed.

Lemma do_io_eintr_unfold fuel fn n :
  do_io_eintr (S fuel) fn n
  = (e ← get_errno;
     if (n =? -1) && ((e : Z) =? EINTR)
     then n' ← real fn; do_io_eintr fuel fn n'
     else mret n).
Proof. reflexivity. Qed.

Global Arguments do_io_retry : simpl never.
Global Arguments do_io_eintr : simpl never.
Global Arguments do_io_call : simpl never.
Global Arguments yield : simpl never.
Global Arguments addEvent : simpl never.
Global Arguments addConditionTimer : simpl never.
Global Arguments arm_condition_timer : simpl never.

Lemma alter_lookup_insert {V : Type} `{Countable K} (f : V → V) (i : K)
    (m : gmap K V) (x : V) :
  m !! i = Some x → alter f i m = <[i := f x]> m.
Proof.
  intros Hx. apply map_eq. intros j. rewrite lookup_alter, lookup_insert.
  repeat case_decide; subst; try congruence; rewrite ?Hx; done.
Qed.

Lemma land_lor_same (x n : Z) : Z.land (Z.lor x n) n = n.
Proof.
  apply Z.bits_inj'. intros i _. rewrite Z.land_spec, Z.lor_spec.
  destruct (Z.testbit x i), (Z.testbit n i); reflexivity.
Qed.

Lemma land_clear_same (x n : Z) : Z.land (Z.land x (Z.lnot n)) n = 0.
Proof.
  apply Z.bits_inj'. intros i Hi.
  rewrite !Z.land_spec, Z.lnot_spec, Z.bits_0 by exact Hi.
  destruct (Z.testbit x i), (Z.testbit n i); reflexivity.
Qed.

(** ** Single steps of the collaborators *)

Lemma real_answered fn w r rest :
  script w = AnsSys r :: rest →
  real fn w = Some (k_ret r, after_calls fn 0 r rest w).
Proof.
  intros Hs. unfold real, sys, after_calls. run_hook. rewrite Hs.
  destruct (k_errno r); reflexivity.
Qed.

Lemma addEvent_answered fd ev w rt rest :
  iom w = true →
  script w = AnsAddEvent rt :: rest →
  addEvent fd ev w = Some (rt, with_script rest (emit (ActAddEvent fd ev) w)).
Proof.
  intros Hiom Hs. unfold addEvent, through_iom. run_hook.
  rewrite Hiom, Hs. reflexivity.
Qed.

Lemma arm_condition_timer_run to cb tinfo w :
  iom w = true →
  arm_condition_timer to cb tinfo w = Some (armed to cb tinfo w).
Proof.
  intros Hiom. unfold arm_condition_timer, armed, addConditionTimer, through_iom.
  destruct (to =? u64_minus_one); run_hook; rewrite ?Hiom; reflexivity.
Qed.

(** Arming a timer leaves the script and the IOManager where they are and
    frees no [timer_info]. *)
Lemma armed_frame to cb tinfo w :
  iom (armed to cb tinfo w).2 = iom w
  ∧ script (armed to cb tinfo w).2 = script w
  ∧ tinfos (armed to cb tinfo w).2 = tinfos w
  ∧ errno (armed to cb tinfo w).2 = errno w.
Proof. unfold armed. destruct (to =? u64_minus_one); cbn; auto. Qed.

Lemma cancel_if_armed_run timer w :
  cancel_if_armed timer w = Some (tt, disarmed timer w).
Proof. destruct timer; reflexivity. Qed.

Lemma armed_handle to cb tinfo w :
  (armed to cb tinfo w).1 = None ↔ to = u64_minus_one.
Proof.
  unfold armed. destruct (Z.eqb_spec to u64_minus_one); cbn.
  - tauto.
  - split; [discriminate | contradiction].
Qed.

Lemma disarmed_gone t w : timers (disarmed (Some t) w) !! t = None.
Proof. cbn. apply lookup_delete_eq. Qed.

(** ** The guards of [do_io] and of [connect_with_timeout] *)

Section Guards.
Variables (fd : Z) (w : World).
Hypothesis Hen : t_hook_enable w = true.

Lemma do_io_without_ctx fn name ev so :
  FdMgr w !! fd = None → do_io fd fn name ev so w = real (fn fd) w.
Proof. intros Hctx. unfold do_io. run_hook. rewrite Hen. cbn. rewrite Hctx. reflexivity. Qed.

Lemma do_io_closed_ctx fn name ev so ctx :
  FdMgr w !! fd = Some ctx → isClose ctx = true →
  do_io fd fn name ev so w = Some (-1, with_errno EBADF w).
Proof.
  intros Hctx Hclosed. unfold do_io. run_hook. rewrite Hen. cbn.
  rewrite Hctx, Hclosed. reflexivity.
Qed.

Lemma do_io_bypass fn name ev so ctx :
  FdMgr w !! fd = Some ctx → isClose ctx = false →
  isSocket ctx = false ∨ getUserNonblock ctx = true →
  do_io fd fn name ev so w = real (fn fd) w.
Proof.
  intros Hctx Hopen Hby. unfold do_io. run_hook. rewrite Hen. cbn.
  rewrite Hctx, Hopen.
  replace (negb (isSocket ctx) || getUserNonblock ctx) with true;
    [reflexivity|].
  destruct Hby as [-> | ->]; [reflexivity|]. symmetry. apply orb_true_r.
Qed.

Lemma connect_without_ctx addr addrlen timeout_ms :
  FdMgr w !! fd = None
  ∨ (∃ ctx, FdMgr w !! fd = Some ctx ∧ isClose ctx = true) →
  connect_with_timeout fd addr addrlen timeout_ms w
  = Some (-1, with_errno EBADF w).
Proof.
  intros Hctx. unfold connect_with_timeout. run_hook. rewrite Hen. cbn.
  destruct Hctx as [-> | (ctx & -> & ->)]; reflexivity.
Qed.
End Guards.

(** C3: with the hook flag set, [do_io] calls the real function when the
    descriptor has no [FdCtx]; it returns -1 with [errno = EBADF], and
    nothing else happens, when the [FdCtx] reports closed; and it calls the
    real function when the descriptor is not a socket or the user asked for
    non-blocking mode. *)
Theorem do_io_guards fd fn name ev so w :
  t_hook_enable w = true →
  (FdMgr w !! fd = None → do_io fd fn name ev so w = real (fn fd) w)
  ∧ (∀ ctx, FdMgr w !! fd = Some ctx → isClose ctx = true →
       do_io fd fn name ev so w = Some (-1, with_errno EBADF w))
  ∧ (∀ ctx, FdMgr w !! fd = Some ctx → isClose ctx = false →
       isSocket ctx = false ∨ getUserNonblock ctx = true →
       do_io fd fn name ev so w = real (fn fd) w).
Proof.
  intros Hen. split; [|split].
  - apply do_io_without_ctx. exact Hen.
  - apply do_io_closed_ctx. exact Hen.
  - apply do_io_bypass. exact Hen.
Qed.

Lemma do_io_guards_witness :
  let fn := λ fd, read_f fd 4096 16 in
  let absent := sample_world ∅ [answer_ok 5] in
  let closed := sample_world {[3 := closed_socket]} [answer_ok 5] in
  let file := sample_world {[3 := plain_file]} [answer_ok 5] in
  let nonblock := sample_world {[3 := nonblocking_socket]} [answer_ok 5] in
  do_io 3 fn "read" READ SO_RCVTIMEO absent = real (fn 3) absent
  ∧ do_io 3 fn "read" READ SO_RCVTIMEO closed
    = Some (-1, with_errno EBADF closed)
  ∧ do_io 3 fn "read" READ SO_RCVTIMEO file = real (fn 3) file
  ∧ do_io 3 fn "read" READ SO_RCVTIMEO nonblock = real (fn 3) nonblock.
Proof.
  intros fn absent closed file nonblock.
  split; [|split; [|split]].
  - apply (do_io_guards 3 fn "read" READ SO_RCVTIMEO absent); reflexivity.
  - apply (do_io_guards 3 fn "read" READ SO_RCVTIMEO closed eq_refl)
      with (ctx := closed_socket); reflexivity.
  - apply (do_io_guards 3 fn "read" READ SO_RCVTIMEO file eq_refl)
      with (ctx := plain_file); [reflexivity | reflexivity |].
    left. reflexivity.
  - apply (do_io_guards 3 fn "read" READ SO_RCVTIMEO nonblock eq_refl)
      with (ctx := nonblocking_socket); [reflexivity | reflexivity |].
    right. reflexivity.
Defined.

(** C9: with the hook flag set, [connect_with_timeout] on a descriptor that
    has no [FdCtx], or whose [FdCtx] reports closed, returns -1 with
    [errno = EBADF]; the world is otherwise unchanged, so the real [connect]
    is not called, whatever the kernel would have answered.  [do_io], in
    the same world without an [FdCtx], calls the real function. *)
Theorem connect_with_timeout_needs_ctx fd addr addrlen timeout_ms w :
  t_hook_enable w = true →
  (FdMgr w !! fd = None
   ∨ ∃ ctx, FdMgr w !! fd = Some ctx ∧ isClose ctx = true) →
  connect_with_timeout fd addr addrlen timeout_ms w
  = Some (-1, with_errno EBADF w)
  ∧ (FdMgr w !! fd = None →
     ∀ fn name ev so, do_io fd fn name ev so w = real (fn fd) w).
Proof.
  intros Hen Hctx. split.
  - apply connect_without_ctx; assumption.
  - intros Hnone fn name ev so. apply do_io_without_ctx; assumption.
Qed.

Lemma connect_with_timeout_needs_ctx_witness :
  let absent := sample_world ∅ [answer_ok 0] in
  let closed := sample_world {[3 := closed_socket]} [answer_ok 0] in
  (connect_with_timeout 3 4096 16 5000 absent
   = Some (-1, with_errno EBADF absent)
   ∧ do_io 3 (λ fd, write_f fd 4096 16) "write" WRITE SO_SNDTIMEO absent
     = real (write_f 3 4096 16) absent)
  ∧ connect_with_timeout 3 4096 16 5000 closed
    = Some (-1, with_errno EBADF closed).
Proof.
  intros absent closed. split.
  - destruct (connect_with_timeout_needs_ctx 3 4096 16 5000 absent eq_refl
                (or_introl eq_refl)) as [Hconn Hio].
    split; [exact Hconn|].
    exact (Hio eq_refl (λ fd, write_f fd 4096 16) "write"%string WRITE
             SO_SNDTIMEO).
  - apply (connect_with_timeout_needs_ctx 3 4096 16 5000 closed eq_refl).
    right. exists closed_socket. split; reflexivity.
Defined.

(** ** After [close] *)

Lemma close_drops_ctx f w r rest :
  t_hook_enable w = true →
  script w = AnsSys r :: rest →
  ∃ w1, close f w = Some (k_ret r, w1)
        ∧ FdMgr w1 !! f = None
        ∧ t_hook_enable w1 = true
        ∧ script w1 = rest.
Proof.
  intros Hen Hs. unfold close, real, sys. run_hook. rewrite Hen. cbn.
  destruct (FdMgr w !! f) as [ctx|] eqn:Hctx; cbn.
  - destruct (iom w); cbn; rewrite Hs; eexists; (split; [reflexivity|]);
      destruct (k_errno r); cbn; rewrite ?lookup_delete_eq; auto.
  - rewrite Hs. eexists. split; [reflexivity|].
    destruct (k_errno r); cbn; auto.
Qed.

(** C1, as the code has it: on a hook-enabled thread the hooked [close(f)]
    returns what the real [close] returns and leaves no [FdCtx] for [f].
    The next call on [f] that goes through [do_io] therefore calls the real
    function and returns what it returns; only [connect_with_timeout]
    returns -1 with [errno = EBADF] without a call of the kernel. *)
Theorem close_then_do_io_delegates f w r rest :
  t_hook_enable w = true →
  script w = AnsSys r :: rest →
  ∃ w1, close f w = Some (k_ret r, w1)
        ∧ FdMgr w1 !! f = None
        ∧ (∀ fn name ev so, do_io f fn name ev so w1 = real (fn f) w1)
        ∧ (∀ addr addrlen timeout_ms,
             connect_with_timeout f addr addrlen timeout_ms w1
             = Some (-1, with_errno EBADF w1)).
Proof.
  intros Hen Hs.
  destruct (close_drops_ctx f w r rest Hen Hs) as (w1 & Hc & Hnone & Hen1 & _).
  exists w1. split; [exact Hc|]. split; [exact Hnone|]. split.
  - intros fn name ev so. apply do_io_without_ctx; assumption.
  - intros addr addrlen timeout_ms. apply connect_without_ctx; auto.
Qed.

Lemma close_then_do_io_delegates_witness :
  let w := sample_world {[3 := live_socket]} [answer_ok 0; answer_err EBADF] in
  ∃ w1, close 3 w = Some (0, w1)
        ∧ FdMgr w1 !! 3 = None
        ∧ (∀ fn name ev so, do_io 3 fn name ev so w1 = real (fn 3) w1)
        ∧ (∀ addr addrlen timeout_ms,
             connect_with_timeout 3 addr addrlen timeout_ms w1
             = Some (-1, with_errno EBADF w1)).
Proof.
  intros w.
  exact (close_then_do_io_delegates 3 w
           {| k_ret := 0; k_errno := None; k_out := None |}
           [answer_err EBADF] eq_refl eq_refl).
Defined.

(** C1 as stated fails.  After [close(3)], a [read] on 3 calls the real
    [read]: it returns -1 with [errno = EBADF] when the kernel says so, and
    it returns the bytes read when the descriptor number has been taken
    again meanwhile by a call that the hooks do not see. *)
Lemma close_then_read_calls_kernel :
  let w := sample_world {[3 := live_socket]} [answer_ok 0; answer_err EBADF] in
  let reused := sample_world {[3 := live_socket]} [answer_ok 0; answer_ok 5] in
  (∃ w1 w2, close 3 w = Some (0, w1)
            ∧ read 3 4096 16 w1 = Some (-1, w2)
            ∧ trace w2 = trace w1 ++ [ActSys (read_f 3 4096 16)]
            ∧ trace w2 ≠ trace w1)
  ∧ (∃ w1 w2, close 3 reused = Some (0, w1)
              ∧ read 3 4096 16 w1 = Some (5, w2)
              ∧ trace w2 = trace w1 ++ [ActSys (read_f 3 4096 16)]).
Proof.
  intros w reused. split.
  - eexists. eexists.
    split; [vm_compute; reflexivity|].
    split; [vm_compute; reflexivity|].
    split; [reflexivity | discriminate].
  - eexists. eexists.
    split; [vm_compute; reflexivity|].
    split; [vm_compute; reflexivity|]. reflexivity.
Qed.

(** ** The hook-enable flag *)

(** X1: the entry points that test the flag fall through when it is
    false: the whole effect is one call of the real function with the
    caller's arguments. *)
Lemma hook_disabled_falls_through c w :
  tests_hook_enable c = true →
  t_hook_enable w = false →
  hooked c w = real (fallthrough c) w.
Proof.
  intros Hc Hen.
  destruct c; try discriminate Hc; cbn [hooked fallthrough];
    unfold sleep, usleep, nanosleep, socket, connect, connect_with_timeout,
      read, readv, recv, recvfrom, recvmsg, write, writev, send, sendto,
      sendmsg, close, setsockopt, getsockopt, getsockopt_out, do_io, real;
    run_hook; rewrite ?Hen; reflexivity.
Qed.

Lemma hook_disabled_falls_through_witness :
  let w := with_hook_enable false
             (sample_world {[3 := live_socket]} [answer_ok 5]) in
  hooked (call_read 3 4096 16) w = real (read_f 3 4096 16) w.
Proof.
  intros w.
  exact (hook_disabled_falls_through (call_read 3 4096 16) w eq_refl eq_refl).
Defined.

(** C4, at [fcntl]: the flag is false, descriptor 3 is a live socket whose
    user asked for non-blocking mode, and [fcntl(3, F_SETFL, 0)] is called.
    The hook does not fall through: it clears [user_nonblock] in the
    [FdCtx] and passes [O_NONBLOCK], not 0, to the real [fcntl]. *)
Theorem fcntl_ignores_hook_enable :
  let w := with_hook_enable false
             (sample_world {[3 := nonblocking_socket]} [answer_ok 0]) in
  t_hook_enable w = false
  ∧ (∃ w', fcntl 3 F_SETFL 0 w = Some (0, w')
           ∧ trace w' = [ActSys (fcntl_f 3 F_SETFL (Some O_NONBLOCK))]
           ∧ FdMgr w' !! 3 = Some live_socket
           ∧ FdMgr w !! 3 = Some nonblocking_socket)
  ∧ hooked (call_fcntl 3 F_SETFL 0) w
    ≠ real (fallthrough (call_fcntl 3 F_SETFL 0)) w.
Proof.
  intros w. split; [reflexivity|]. split.
  - eexists. split; [vm_compute; reflexivity|].
    split; [reflexivity|]. split; vm_compute; reflexivity.
  - vm_compute. intros H. discriminate H.
Qed.

(** [ioctl] with [FIONBIO] does not test the flag either, and [accept]
    installs an [FdCtx] for the descriptor it returns whatever the flag. *)
Example ioctl_ignores_hook_enable :
  let w := with_hook_enable false
             (sample_world {[3 := live_socket]} [answer_ok 0]) in
  ∃ w', ioctl 3 FIONBIO 1 w = Some (0, w')
        ∧ FdMgr w' !! 3 = Some nonblocking_socket.
Proof.
  intros w. eexists. split; vm_compute; reflexivity.
Qed.

Example accept_ignores_hook_enable :
  let w := with_hook_enable false
             (sample_world {[3 := live_socket]}
                [answer_ok 5;
                 AnsSys {| k_ret := 0; k_errno := None; k_out := Some 1 |};
                 answer_ok 2; answer_ok 0]) in
  ∃ w', accept 3 4096 8192 w = Some (5, w')
        ∧ FdMgr w !! 5 = None
        ∧ FdMgr w' !! 5 = Some (setTimeout SO_RCVTIMEO u64_minus_one live_socket).
Proof.
  intros w. eexists. split; [vm_compute; reflexivity|].
  split; vm_compute; reflexivity.
Qed.
(** ** The timeout lambdas *)

(** C8: the timeout callbacks that [do_io] and [connect_with_timeout] hand
    to [addConditionTimer] leave the world as it is when the weak reference
    does not upgrade, and when [cancelled] is already non-zero; otherwise
    they set [cancelled] to [ETIMEDOUT] and call [cancelEvent] once, on the
    descriptor and direction of the operation, and do nothing else. *)
Theorem timeout_cb_effect winfo fd event w :
  (tinfos w !! winfo = None →
     do_io_timeout_cb winfo fd event w = Some (tt, w)
     ∧ connect_timeout_cb winfo fd w = Some (tt, w))
  ∧ (∀ c, tinfos w !! winfo = Some c → c ≠ 0 →
       do_io_timeout_cb winfo fd event w = Some (tt, w)
       ∧ connect_timeout_cb winfo fd w = Some (tt, w))
  ∧ (tinfos w !! winfo = Some 0 →
       let fired := with_tinfos (<[winfo := ETIMEDOUT]> (tinfos w))
                                (tinfo_next w) w in
       do_io_timeout_cb winfo fd event w
       = Some (tt, with_trace (trace w ++ [ActCancelEvent fd event]) fired)
       ∧ connect_timeout_cb winfo fd w
         = Some (tt, with_trace (trace w ++ [ActCancelEvent fd WRITE]) fired)).
Proof.
  unfold do_io_timeout_cb, connect_timeout_cb. run_hook.
  split; [|split].
  - intros ->. split; reflexivity.
  - intros c -> Hc. apply Z.eqb_neq in Hc. rewrite Hc. split; reflexivity.
  - intros Hw. rewrite Hw. cbn.
    rewrite (alter_lookup_insert _ _ _ _ Hw). split; reflexivity.
Qed.

Lemma timeout_cb_effect_witness :
  let w := sample_world {[3 := live_socket]} [] in
  let dead := w in
  let late := with_tinfos {[0%nat := ETIMEDOUT]} 1 w in
  let fresh := with_tinfos {[0%nat := 0]} 1 w in
  (do_io_timeout_cb 0 3 READ dead = Some (tt, dead)
   ∧ connect_timeout_cb 0 3 dead = Some (tt, dead))
  ∧ (do_io_timeout_cb 0 3 READ late = Some (tt, late)
     ∧ connect_timeout_cb 0 3 late = Some (tt, late))
  ∧ (do_io_timeout_cb 0 3 READ fresh
     = Some (tt, with_trace [ActCancelEvent 3 READ]
                   (with_tinfos (<[0%nat := ETIMEDOUT]> {[0%nat := 0]}) 1 fresh))
     ∧ connect_timeout_cb 0 3 fresh
       = Some (tt, with_trace [ActCancelEvent 3 WRITE]
                     (with_tinfos (<[0%nat := ETIMEDOUT]> {[0%nat := 0]}) 1
                        fresh))).
Proof.
  intros w dead late fresh. split; [|split].
  - apply (timeout_cb_effect 0 3 READ dead). reflexivity.
  - apply (timeout_cb_effect 0 3 READ late) with (c := ETIMEDOUT);
      [reflexivity | discriminate].
  - apply (timeout_cb_effect 0 3 READ fresh). reflexivity.
Defined.

(** ** The timeouts cached by [setsockopt] *)

(** C10: with the hook flag set, [setsockopt] at level [SOL_SOCKET] with
    [SO_RCVTIMEO] or [SO_SNDTIMEO] on a descriptor that has an [FdCtx]
    first stores [tv_sec * 1000 + tv_usec / 1000] milliseconds in the
    [FdCtx] and then calls the real [setsockopt] in the world so updated.
    Whatever the kernel answers, failure included, the cache holds the new
    value afterwards and the hook returns the kernel's return value. *)
Theorem setsockopt_caches_timeout sockfd optname optval optlen ctx w :
  t_hook_enable w = true →
  optname = SO_RCVTIMEO ∨ optname = SO_SNDTIMEO →
  FdMgr w !! sockfd = Some ctx →
  let cached :=
    with_FdMgr (<[sockfd := setTimeout optname (timeval_ms optval) ctx]>
                  (FdMgr w)) w in
  setsockopt sockfd SOL_SOCKET optname optval optlen w
  = real (setsockopt_f sockfd SOL_SOCKET optname optval optlen) cached
  ∧ (∀ r rest, script w = AnsSys r :: rest →
       ∃ w', setsockopt sockfd SOL_SOCKET optname optval optlen w
             = Some (k_ret r, w')
             ∧ trace w' = trace w ++ [ActSys (setsockopt_f sockfd SOL_SOCKET
                                               optname optval optlen)]
             ∧ ∃ ctx', FdMgr w' !! sockfd = Some ctx'
                       ∧ getTimeout optname ctx' = timeval_ms optval)
  ∧ (0 ≤ tv_sec optval → 0 ≤ tv_usec optval →
     tv_sec optval * 1000 + tv_usec optval / 1000 < 2 ^ 64 →
     timeval_ms optval = tv_sec optval * 1000 + tv_usec optval / 1000).
Proof.
  intros Hen Hopt Hctx cached.
  assert (Hrun : setsockopt sockfd SOL_SOCKET optname optval optlen w
                 = real (setsockopt_f sockfd SOL_SOCKET optname optval optlen)
                     cached).
  { unfold setsockopt. run_hook. rewrite Hen. cbn.
    replace ((optname =? SO_RCVTIMEO) || (optname =? SO_SNDTIMEO))
      with true by (destruct Hopt as [-> | ->]; reflexivity).
    rewrite Hctx. cbn. rewrite (alter_lookup_insert _ _ _ _ Hctx).
    reflexivity. }
  split; [exact Hrun|]. split.
  - intros r rest Hs. rewrite Hrun. unfold real, sys. run_hook.
    rewrite Hs.
    eexists. split; [reflexivity|]. split.
    + destruct (k_errno r); reflexivity.
    + exists (setTimeout optname (timeval_ms optval) ctx). split.
      * destruct (k_errno r); cbn; apply lookup_insert_eq.
      * unfold getTimeout, setTimeout. cbn.
        destruct Hopt as [-> | ->]; reflexivity.
  - intros Hsec Husec Hlt. unfold timeval_ms, to_u64.
    rewrite Z.quot_div_nonneg by lia.
    apply Z.mod_small. split; [|exact Hlt].
    assert (0 ≤ tv_usec optval / 1000) by (apply Z.div_pos; lia). lia.
Qed.

Lemma setsockopt_caches_timeout_witness :
  let tv := {| tv_sec := 1; tv_usec := 2500 |} in
  let w := sample_world {[3 := live_socket]} [answer_err 22] in
  setsockopt 3 SOL_SOCKET SO_SNDTIMEO tv 16 w
  = real (setsockopt_f 3 SOL_SOCKET SO_SNDTIMEO tv 16)
      (with_FdMgr (<[3 := setTimeout SO_SNDTIMEO (timeval_ms tv) live_socket]>
                     (FdMgr w)) w)
  ∧ (∃ w', setsockopt 3 SOL_SOCKET SO_SNDTIMEO tv 16 w = Some (-1, w')
           ∧ trace w' = [ActSys (setsockopt_f 3 SOL_SOCKET SO_SNDTIMEO tv 16)]
           ∧ ∃ ctx', FdMgr w' !! 3 = Some ctx'
                     ∧ getTimeout SO_SNDTIMEO ctx' = timeval_ms tv)
  ∧ timeval_ms tv = 1002.
Proof.
  intros tv w.
  destruct (setsockopt_caches_timeout 3 SO_SNDTIMEO tv 16 live_socket w
              eq_refl (or_intror eq_refl) eq_refl) as (Hrun & Hans & Hms).
  split; [exact Hrun|]. split.
  - exact (Hans _ _ eq_refl).
  - apply Hms; subst tv; cbn; [lia | lia | reflexivity].
Defined.

(** ** The user's view of [O_NONBLOCK] *)

(** C7: on a descriptor whose [FdCtx] is a live socket, [F_GETFL] after
    [F_SETFL] with [O_NONBLOCK] set returns a value with [O_NONBLOCK] set,
    and after [F_SETFL] with [O_NONBLOCK] cleared a value with it clear,
    whatever the kernel answers to the two calls.  In general the
    [O_NONBLOCK] bit of what [F_GETFL] returns is the [FdCtx]'s
    [user_nonblock], and the other bits are the kernel's. *)
Theorem fcntl_user_nonblock_view fd flags va ctx w r1 r2 rest :
  FdMgr w !! fd = Some ctx →
  isClose ctx = false →
  isSocket ctx = true →
  script w = AnsSys r1 :: AnsSys r2 :: rest →
  (∃ w', (fcntl fd F_SETFL (Z.lor flags O_NONBLOCK);; fcntl fd F_GETFL va) w
         = Some (Z.lor (k_ret r2) O_NONBLOCK, w')
         ∧ Z.land (Z.lor (k_ret r2) O_NONBLOCK) O_NONBLOCK ≠ 0)
  ∧ (∃ w', (fcntl fd F_SETFL (Z.land flags (Z.lnot O_NONBLOCK));;
            fcntl fd F_GETFL va) w
           = Some (Z.land (k_ret r2) (Z.lnot O_NONBLOCK), w')
           ∧ Z.land (Z.land (k_ret r2) (Z.lnot O_NONBLOCK)) O_NONBLOCK = 0)
  ∧ (∃ w', fcntl fd F_GETFL va w
           = Some (if getUserNonblock ctx
                   then Z.lor (k_ret r1) O_NONBLOCK
                   else Z.land (k_ret r1) (Z.lnot O_NONBLOCK), w')).
Proof.
  intros Hctx Hopen Hsock Hs.
  assert (Hset : ∀ arg,
    fcntl fd F_SETFL arg w
    = real (fcntl_f fd F_SETFL
              (Some (if getSysNonblock ctx then Z.lor arg O_NONBLOCK
                     else Z.land arg (Z.lnot O_NONBLOCK))))
        (with_FdMgr (<[fd := setUserNonblock
                               (negb (Z.land arg O_NONBLOCK =? 0)) ctx]>
                       (FdMgr w)) w)).
  { intros arg. unfold fcntl. run_hook. rewrite Hctx. cbn.
    rewrite Hopen, Hsock. cbn.
    rewrite (alter_lookup_insert _ _ _ _ Hctx). reflexivity. }
  assert (Hget : ∀ w0 c r tl,
    FdMgr w0 !! fd = Some c → isClose c = false → isSocket c = true →
    script w0 = AnsSys r :: tl →
    ∃ w', fcntl fd F_GETFL va w0
          = Some (if getUserNonblock c then Z.lor (k_ret r) O_NONBLOCK
                  else Z.land (k_ret r) (Z.lnot O_NONBLOCK), w')).
  { intros w0 c r tl Hc Ho Hk Hsc. unfold fcntl, real, sys. run_hook.
    rewrite Hsc. cbn.
    replace (FdMgr match k_errno r with
                   | Some e => with_errno e
                                 (with_script tl
                                    (emit (ActSys (fcntl_f fd F_GETFL None)) w0))
                   | None => with_script tl
                               (emit (ActSys (fcntl_f fd F_GETFL None)) w0)
                   end !! fd) with (Some c)
      by (destruct (k_errno r); cbn; congruence).
    rewrite Ho, Hk. cbn. destruct (getUserNonblock c); eexists; reflexivity. }
  assert (Hseq : ∀ arg,
    ∃ w', (fcntl fd F_SETFL arg;; fcntl fd F_GETFL va) w
          = Some (if negb (Z.land arg O_NONBLOCK =? 0)
                  then Z.lor (k_ret r2) O_NONBLOCK
                  else Z.land (k_ret r2) (Z.lnot O_NONBLOCK), w')).
  { intros arg. unfold mbind at 1. unfold M_bind. rewrite Hset.
    unfold real, sys. run_hook. rewrite Hs.
    set (w1 := match k_errno r1 with Some e => _ | None => _ end).
    destruct (Hget w1 (setUserNonblock (negb (Z.land arg O_NONBLOCK =? 0)) ctx)
                r2 rest) as [w' Hw'].
    - subst w1. destruct (k_errno r1); cbn; apply lookup_insert_eq.
    - exact Hopen.
    - exact Hsock.
    - subst w1. destruct (k_errno r1); reflexivity.
    - exists w'. exact Hw'. }
  split; [|split].
  - destruct (Hseq (Z.lor flags O_NONBLOCK)) as [w' Hw'].
    rewrite land_lor_same in Hw'. exists w'. split; [exact Hw'|].
    rewrite land_lor_same. discriminate.
  - destruct (Hseq (Z.land flags (Z.lnot O_NONBLOCK))) as [w' Hw'].
    rewrite land_clear_same in Hw'. exists w'. split; [exact Hw'|].
    apply land_clear_same.
  - apply (Hget w ctx r1 (AnsSys r2 :: rest) Hctx Hopen Hsock Hs).
Qed.

Lemma fcntl_user_nonblock_view_witness :
  let w := sample_world {[3 := live_socket]} [answer_ok 0; answer_ok 2] in
  (∃ w', (fcntl 3 F_SETFL (Z.lor 2 O_NONBLOCK);; fcntl 3 F_GETFL 0) w
         = Some (Z.lor 2 O_NONBLOCK, w')
         ∧ Z.land (Z.lor 2 O_NONBLOCK) O_NONBLOCK ≠ 0)
  ∧ (∃ w', (fcntl 3 F_SETFL (Z.land 2 (Z.lnot O_NONBLOCK));;
            fcntl 3 F_GETFL 0) w
           = Some (Z.land 2 (Z.lnot O_NONBLOCK), w')
           ∧ Z.land (Z.land 2 (Z.lnot O_NONBLOCK)) O_NONBLOCK = 0)
  ∧ (∃ w', fcntl 3 F_GETFL 0 w = Some (Z.land 0 (Z.lnot O_NONBLOCK), w')).
Proof.
  intros w.
  exact (fcntl_user_nonblock_view 3 2 0 live_socket w
           {| k_ret := 0; k_errno := None; k_out := None |}
           {| k_ret := 2; k_errno := None; k_out := None |} []
           eq_refl eq_refl eq_refl eq_refl).
Defined.

(** ** The [EINTR] loop of [do_io] *)

Section EintrLoop.
Variable fn : syscall.

Lemma do_io_eintr_done fuel n w :
  n ≠ -1 ∨ errno w ≠ EINTR → do_io_eintr fuel fn n w = Some (n, w).
Proof.
  intros H. destruct fuel; unfold do_io_eintr; run_hook.
  all: replace ((n =? -1) && (errno w =? EINTR)) with false; [reflexivity|].
  all: symmetry; apply andb_false_iff; destruct H as [H|H];
    [left|right]; apply Z.eqb_neq; exact H.
Qed.

Lemma after_calls_settled k r rest w :
  settled_answer r →
  k_ret r ≠ -1 ∨ errno (after_calls fn k r rest w) ≠ EINTR.
Proof.
  intros [H | (e & He & Hne)]; [left; exact H|right].
  unfold after_calls. rewrite He. exact Hne.
Qed.

(** The loop itself, entered with [n = -1] and [errno = EINTR]: every
    [EINTR] answer costs one more call and nothing else. *)
Lemma do_io_eintr_loops r rest rs : ∀ fuel w,
  script w = map AnsSys rs ++ AnsSys r :: rest →
  Forall eintr_answer rs →
  settled_answer r →
  errno w = EINTR →
  (length rs < fuel)%nat →
  do_io_eintr fuel fn (-1) w
  = Some (k_ret r,
          let w1 :=
            with_script rest
              (with_trace (trace w ++ repeat (ActSys fn) (S (length rs))) w) in
          match k_errno r with
          | Some e => with_errno e w1
          | None => w1
          end).
Proof.
  induction rs as [|a rs IH]; intros fuel w Hs Hrs Hr He Hf;
    (destruct fuel as [|fuel]; [cbn in Hf; lia|]);
    rewrite do_io_eintr_unfold; unfold real, sys; run_hook; rewrite He; cbn;
    cbn in Hs; rewrite Hs.
  - rewrite do_io_eintr_done; [reflexivity|].
    destruct Hr as [H | (e & Hk & Hne)]; [left; exact H|right].
    rewrite Hk. exact Hne.
  - inversion Hrs as [|? ? [Ha1 Ha2] Hrs']; subst.
    rewrite Ha2, Ha1.
    rewrite (IH fuel); try assumption; try reflexivity; [|cbn in Hf; lia].
    f_equal. f_equal. cbn. rewrite <- (app_assoc (trace w)).
    destruct w; cbn in *; subst; destruct (k_errno r); reflexivity.
Qed.

(** The call at [retry] and the loop: [length rs] answers of [EINTR], then
    [r]. *)
Lemma do_io_call_eintr fuel w rs r rest :
  script w = map AnsSys rs ++ AnsSys r :: rest →
  Forall eintr_answer rs →
  settled_answer r →
  (length rs ≤ fuel)%nat →
  do_io_call fuel fn w
  = Some (k_ret r, after_calls fn (length rs) r rest w).
Proof.
  intros Hs Hrs Hr Hf. unfold do_io_call, mbind, M_bind.
  destruct rs as [|a rs].
  - cbn in Hs. rewrite (real_answered fn w r rest Hs).
    apply do_io_eintr_done, after_calls_settled, Hr.
  - cbn in Hs. rewrite (real_answered fn w a _ Hs).
    inversion Hrs as [|? ? [Ha1 Ha2] Hrs']; subst. rewrite Ha1.
    assert (Hw1 : after_calls fn 0 a (map AnsSys rs ++ AnsSys r :: rest) w
                  = with_errno EINTR
                      (with_script (map AnsSys rs ++ AnsSys r :: rest)
                         (emit (ActSys fn) w))).
    { unfold after_calls. rewrite Ha2. reflexivity. }
    rewrite Hw1.
    rewrite (do_io_eintr_loops r rest rs fuel
               (with_errno EINTR
                  (with_script (map AnsSys rs ++ AnsSys r :: rest)
                     (emit (ActSys fn) w))) eq_refl Hrs' Hr eq_refl)
      by (cbn in Hf; lia).
    f_equal. f_equal. unfold after_calls. cbn.
    rewrite <- (app_assoc (trace w)).
    destruct (k_errno r); reflexivity.
Qed.
End EintrLoop.

Lemma do_io_settle_ready retry fd name ev to tinfo n w :
  n ≠ -1 ∨ errno w ≠ EAGAIN →
  do_io_settle retry fd name ev to tinfo n w = Some (n, w).
Proof.
  intros H. unfold do_io_settle. run_hook.
  replace ((n =? -1) && (errno w =? EAGAIN)) with false; [reflexivity|].
  symmetry; apply andb_false_iff; destruct H as [H|H];
    [left|right]; apply Z.eqb_neq; exact H.
Qed.

(** C6: in [do_io], as long as the real function answers -1 with
    [errno = EINTR] it is called again at once.  When the kernel answers
    [EINTR] to the first [length rs] calls and then [r], the call at
    [retry] and the loop end with the return value of [r], after
    [length rs + 1] real calls and nothing else: no timer, no event, no
    yield.  That result then goes through the test for [EAGAIN] as any
    other; in particular, if [r] is not [EAGAIN] either, [do_io] returns
    the return value of [r]. *)
Theorem do_io_eintr_retry fuel fd fn name ev so to tinfo w rs r rest :
  script w = map AnsSys rs ++ AnsSys r :: rest →
  Forall eintr_answer rs →
  settled_answer r →
  (length rs ≤ fuel)%nat →
  do_io_call fuel (fn fd) w
  = Some (k_ret r, after_calls (fn fd) (length rs) r rest w)
  ∧ do_io_retry (S fuel) fd (fn fd) name ev to tinfo w
    = do_io_settle (do_io_retry fuel fd (fn fd) name ev to tinfo)
        fd name ev to tinfo (k_ret r)
        (after_calls (fn fd) (length rs) r rest w)
  ∧ (∀ ctx,
       t_hook_enable w = true →
       FdMgr w !! fd = Some ctx →
       isClose ctx = false → isSocket ctx = true →
       getUserNonblock ctx = false →
       ready_answer r →
       ∃ w', do_io fd fn name ev so w = Some (k_ret r, w')
             ∧ trace w' = trace w ++ repeat (ActSys (fn fd)) (S (length rs))
             ∧ script w' = rest
             ∧ timers w' = timers w).
Proof.
  intros Hs Hrs Hr Hf.
  pose proof (do_io_call_eintr (fn fd) fuel w rs r rest Hs Hrs Hr Hf) as Hcall.
  split; [exact Hcall|]. split.
  - apply do_io_retry_after_call. exact Hcall.
  - intros ctx Hen Hctx Hopen Hsock Hblock Hready.
    unfold do_io, tinfo_new, answers_left. run_hook.
    rewrite Hen. cbn. rewrite Hctx. cbn. rewrite Hopen, Hsock, Hblock. cbn.
    erewrite do_io_retry_after_call.
    2:{ apply (do_io_call_eintr (fn fd) _ _ rs r rest);
          [exact Hs | exact Hrs | exact Hr |].
        cbn. rewrite Hs, length_app, length_map. lia. }
    rewrite do_io_settle_ready.
    + eexists. split; [reflexivity|].
      unfold after_calls.
      destruct (k_errno r), (length rs); cbn; auto.
    + destruct Hready as [H | (e & He & Hne)]; [left; exact H|right].
      unfold after_calls. rewrite He. exact Hne.
Qed.

Lemma do_io_eintr_retry_witness :
  let fn := λ fd, read_f fd 4096 16 in
  let eintr := {| k_ret := -1; k_errno := Some EINTR; k_out := None |} in
  let seven := {| k_ret := 7; k_errno := None; k_out := None |} in
  let w := sample_world {[3 := live_socket]}
             [AnsSys eintr; AnsSys eintr; AnsSys seven] in
  do_io_call 3 (fn 3) w = Some (7, after_calls (fn 3) 2 seven [] w)
  ∧ do_io_retry 4 3 (fn 3) "read" READ 100 0 w
    = do_io_settle (do_io_retry 3 3 (fn 3) "read" READ 100 0)
        3 "read" READ 100 0%nat 7 (after_calls (fn 3) 2 seven [] w)
  ∧ ∃ w', do_io 3 fn "read" READ SO_RCVTIMEO w = Some (7, w')
          ∧ trace w' = repeat (ActSys (fn 3)) 3
          ∧ script w' = []
          ∧ timers w' = timers w.
Proof.
  intros fn eintr seven w.
  assert (Hrs : Forall eintr_answer [eintr; eintr]).
  { repeat constructor. }
  assert (Hr : settled_answer seven).
  { left. discriminate. }
  destruct (do_io_eintr_retry 3 3 fn "read" READ SO_RCVTIMEO 100 0 w
              [eintr; eintr] seven [] eq_refl Hrs Hr) as (Hcall & Hloop & Hio).
  { cbn. lia. }
  split; [exact Hcall|]. split; [exact Hloop|].
  apply (Hio live_socket); try reflexivity.
  left. discriminate.
Defined.

(** ** Suspension and resumption in [do_io] *)

Create HintDb resume discriminated.

Section Resumption.
Variable t : nat.

Lemma resumes_from_refl w : resumes_from t w w.
Proof. unfold resumes_from. eauto 10. Qed.

Lemma resumes_from_trans w1 w2 w3 :
  resumes_from t w1 w2 → resumes_from t w2 w3 → resumes_from t w1 w3.
Proof.
  unfold resumes_from.
  intros (Ha & ? & ? & ? & ? & ?) (Hb & ? & ? & ? & ? & ?).
  split; [|repeat split; congruence].
  intros c Hc. destruct (Ha c Hc) as [c' Hc']. eauto.
Qed.

Hint Resolve resumes_from_refl resumes_from_trans : resume.

Lemma timeout_cb_resumes winfo fd ev w :
  ∃ w', do_io_timeout_cb winfo fd ev w = Some (tt, w')
        ∧ resumes_from t w w'.
Proof.
  unfold do_io_timeout_cb. run_hook.
  destruct (tinfos w !! winfo) as [c|] eqn:Hw; [|eauto with resume].
  destruct (c =? 0); cbn; [|eauto with resume].
  eexists. split; [reflexivity|]. unfold resumes_from. cbn.
  split; [|auto 10]. intros c' Hc'. rewrite lookup_alter.
  case_decide; subst; rewrite Hc'; cbn; eauto.
Qed.

Lemma run_callback_resumes cb w :
  ∃ w', run_callback cb w = Some (tt, w') ∧ resumes_from t w w'.
Proof.
  destruct cb; cbn.
  - eexists. split; [reflexivity|]. unfold resumes_from. cbn. eauto 10.
  - apply timeout_cb_resumes.
  - apply (timeout_cb_resumes winfo fd WRITE w).
Qed.

Lemma Timer_expire_resumes x w :
  ∃ w', Timer_expire x w = Some (tt, w') ∧ resumes_from t w w'.
Proof.
  unfold Timer_expire.
  destruct (timers w !! x) as [tm|]; [|eauto with resume].
  set (w1 := with_timers _ _ w).
  assert (H1 : resumes_from t w w1).
  { unfold resumes_from. cbn. eauto 10. }
  destruct (run_callback_resumes (t_cb tm) w1) as (w' & Hrun & Hw').
  destruct (t_cond tm) as [c|].
  - destruct (tinfos w1 !! c); eauto with resume.
  - eauto with resume.
Qed.

Lemma Timers_expire_resumes ts : ∀ w,
  ∃ w', Timers_expire ts w = Some (tt, w') ∧ resumes_from t w w'.
Proof.
  induction ts as [|x ts IH]; intros w; cbn.
  - eauto with resume.
  - run_hook. destruct (Timer_expire_resumes x w) as (w1 & -> & H1).
    destruct (IH w1) as (w2 & -> & H2). eauto with resume.
Qed.

Lemma yield_resumes ts rest w :
  script w = AnsWake ts :: rest →
  ∃ w', yield w = Some (tt, w')
        ∧ resumes_from t (with_script rest (emit ActYield w)) w'.
Proof.
  intros Hs. unfold yield. rewrite Hs. apply Timers_expire_resumes.
Qed.
End Resumption.

(** Arming the timer and registering the event, for either callback. *)
Lemma arm_and_register to cb tinfo fd ev w rt rest :
  iom w = true →
  script w = AnsAddEvent rt :: rest →
  (timer ← arm_condition_timer to cb tinfo;
   rt ← addEvent fd ev;
   mret (timer, rt)) w
  = Some ((armed to cb tinfo w).1, rt,
          with_script rest (emit (ActAddEvent fd ev) (armed to cb tinfo w).2)).
Proof.
  intros Hiom Hs. unfold mbind, M_bind, mret, M_ret.
  rewrite (arm_condition_timer_run to cb tinfo w Hiom).
  destruct (armed_frame to cb tinfo w) as (Hiom1 & Hs1 & _).
  destruct (armed to cb tinfo w) as [tm w1]. cbn [fst snd] in *.
  rewrite (addEvent_answered fd ev w1 rt rest); [reflexivity | congruence..].
Qed.

Section DoIoBlocks.
Variables (fd : Z) (fn : syscall) (name : string) (ev : Event) (to : Z)
          (tinfo : nat).

Let cb : callback := CbIoTimeout tinfo fd ev.

(** In the [EAGAIN] branch the timer is armed if there is a timeout and
    the event is registered; the answer of [addEvent] decides. *)
Lemma do_io_settle_registers retry w rt rest :
  errno w = EAGAIN →
  iom w = true →
  script w = AnsAddEvent rt :: rest →
  let timer := (armed to cb tinfo w).1 in
  let w2 := with_script rest
              (emit (ActAddEvent fd ev) (armed to cb tinfo w).2) in
  do_io_settle retry fd name ev to tinfo (-1) w
  = if rt =? 0
    then (yield;; do_io_resume retry timer tinfo) w2
    else Some (-1, disarmed timer (emit (ActLogError name fd) w2)).
Proof.
  intros Herrno Hiom Hs timer w2.
  pose proof (arm_and_register to cb tinfo fd ev w rt rest Hiom Hs) as Hreg.
  unfold do_io_settle, do_io_arm. fold cb.
  unfold mbind, M_bind, mret, M_ret, get_errno in Hreg |- *.
  rewrite Herrno. cbn [Z.eqb Pos.eqb EAGAIN andb].
  destruct (arm_condition_timer to cb tinfo w) as [[tm w1]|];
    [|discriminate Hreg].
  destruct (addEvent fd ev w1) as [[rt' w2']|]; [|discriminate Hreg].
  injection Hreg as -> -> ->. fold timer. fold w2. unfold SYLAR_UNLIKELY.
  destruct (rt =? 0); cbn [negb]; [reflexivity|].
  unfold log_error, do_emit. rewrite cancel_if_armed_run. reflexivity.
Qed.

(** The same steps, seen as the run up to the return of [yield]. *)
Lemma do_io_until_resumed_run w ts rest :
  iom w = true →
  script w = AnsAddEvent 0 :: AnsWake ts :: rest →
  do_io_until_resumed fd ev to tinfo w
  = (yield;; mret (armed to cb tinfo w).1)
      (with_script (AnsWake ts :: rest)
         (emit (ActAddEvent fd ev) (armed to cb tinfo w).2)).
Proof.
  intros Hiom Hs.
  pose proof (arm_and_register to cb tinfo fd ev w 0 _ Hiom Hs) as Hreg.
  unfold do_io_until_resumed, do_io_arm. fold cb.
  unfold mbind, M_bind, mret, M_ret in Hreg |- *.
  destruct (arm_condition_timer to cb tinfo w) as [[tm w1]|];
    [|discriminate Hreg].
  destruct (addEvent fd ev w1) as [[rt' w2']|]; [|discriminate Hreg].
  injection Hreg as -> -> ->. reflexivity.
Qed.

(** After [yield], with the [timer_info] alive as it is as long as
    [do_io] runs. *)
Lemma do_io_resume_run retry timer w c :
  tinfos w !! tinfo = Some c →
  do_io_resume retry timer tinfo w
  = if c =? 0 then retry (disarmed timer w)
    else Some (-1, with_errno c (disarmed timer w)).
Proof.
  intros Hc. unfold do_io_resume, tinfo_cancelled.
  destruct timer as [t|]; unfold cancel_if_armed, Timer_cancel; run_hook;
    rewrite Hc; destruct (c =? 0); reflexivity.
Qed.

Lemma do_io_suspends retry w ts rest c0 :
  errno w = EAGAIN →
  iom w = true →
  script w = AnsAddEvent 0 :: AnsWake ts :: rest →
  tinfos w !! tinfo = Some c0 →
  ∃ timer w_y c,
    do_io_until_resumed fd ev to tinfo w = Some (timer, w_y)
    ∧ (timer = None ↔ to = u64_minus_one)
    ∧ tinfos w_y !! tinfo = Some c
    ∧ do_io_settle retry fd name ev to tinfo (-1) w
      = do_io_resume retry timer tinfo w_y.
Proof.
  intros Herrno Hiom Hs Hlive.
  set (w2 := with_script (AnsWake ts :: rest)
               (emit (ActAddEvent fd ev) (armed to cb tinfo w).2)).
  assert (Hlive2 : tinfos w2 !! tinfo = Some c0).
  { subst w2. unfold armed. destruct (to =? u64_minus_one); exact Hlive. }
  destruct (yield_resumes tinfo ts rest w2) as (w_y & Hy & Halive & _).
  { subst w2. reflexivity. }
  destruct (Halive c0 Hlive2) as [c Hc].
  exists (armed to cb tinfo w).1, w_y, c.
  split; [|split; [apply armed_handle|split; [exact Hc|]]].
  - rewrite (do_io_until_resumed_run w ts rest Hiom Hs). fold w2.
    unfold mbind, M_bind. rewrite Hy. reflexivity.
  - rewrite (do_io_settle_registers retry w 0 _ Herrno Hiom Hs).
    cbn [Z.eqb]. fold w2. unfold mbind, M_bind. rewrite Hy. reflexivity.
Qed.

(** When [addEvent] returns non-zero the error is logged, the timer, if
    one was armed, is cancelled and -1 is returned. *)
Lemma do_io_addEvent_fails fuel w0 w rt rest :
  do_io_call fuel fn w0 = Some (-1, w) →
  errno w = EAGAIN →
  iom w = true →
  script w = AnsAddEvent rt :: rest →
  rt ≠ 0 →
  ∃ timer w',
    do_io_retry (S fuel) fd fn name ev to tinfo w0 = Some (-1, w')
    ∧ (timer = None ↔ to = u64_minus_one)
    ∧ (∀ t, timer = Some t → timers w' !! t = None)
    ∧ script w' = rest.
Proof.
  intros Hcall Herrno Hiom Hs Hrt.
  exists (armed to cb tinfo w).1. eexists.
  split; [|split; [apply armed_handle|]].
  - rewrite (do_io_retry_after_call _ _ _ _ _ _ _ _ _ _ Hcall).
    rewrite (do_io_settle_registers _ w rt rest Herrno Hiom Hs).
    apply Z.eqb_neq in Hrt. rewrite Hrt. reflexivity.
  - split.
    + intros t Ht. rewrite Ht. apply disarmed_gone.
    + destruct (armed to cb tinfo w).1; reflexivity.
Qed.
End DoIoBlocks.

(** C2: in [do_io], when the call of the real function has ended with -1
    and [errno = EAGAIN], the event has been registered and the fiber has
    yielded, the fiber resumes as follows.  The condition timer, armed
    exactly when the timeout is not -1, is cancelled.  Then, if
    [tinfo->cancelled] is non-zero, [errno] is set to it and -1 is
    returned; if it is zero, the code goes back to the label [retry],
    where the real function is called again. *)
Theorem do_io_after_yield fuel fd fn name ev to tinfo w0 w ts rest c0 :
  do_io_call fuel fn w0 = Some (-1, w) →
  errno w = EAGAIN →
  iom w = true →
  script w = AnsAddEvent 0 :: AnsWake ts :: rest →
  tinfos w !! tinfo = Some c0 →
  ∃ timer w_y c,
    do_io_until_resumed fd ev to tinfo w = Some (timer, w_y)
    ∧ (timer = None ↔ to = u64_minus_one)
    ∧ tinfos w_y !! tinfo = Some c
    ∧ (∀ t, timer = Some t →
         timers (disarmed timer w_y) !! t = None
         ∧ trace (disarmed timer w_y) = trace w_y ++ [ActTimerCancel t])
    ∧ do_io_retry (S fuel) fd fn name ev to tinfo w0
      = if c =? 0
        then do_io_retry fuel fd fn name ev to tinfo (disarmed timer w_y)
        else Some (-1, with_errno c (disarmed timer w_y)).
Proof.
  intros Hcall Herrno Hiom Hs Hlive.
  destruct (do_io_suspends fd name ev to tinfo
              (do_io_retry fuel fd fn name ev to tinfo) w ts rest c0
              Herrno Hiom Hs Hlive)
    as (timer & w_y & c & Hy & Ht & Hc & Hrun).
  exists timer, w_y, c. repeat split; try tauto.
  - subst timer. apply disarmed_gone.
  - subst timer. reflexivity.
  - rewrite (do_io_retry_after_call _ _ _ _ _ _ _ _ _ _ Hcall), Hrun.
    apply do_io_resume_run. exact Hc.
Qed.

Lemma do_io_after_yield_witness :
  let fn := read_f 3 4096 16 in
  let w0 := with_tinfos {[0%nat := 0]} 1
              (sample_world {[3 := live_socket]}
                 [answer_err EAGAIN; AnsAddEvent 0; AnsWake [0%nat];
                  answer_ok 7]) in
  let w := with_errno EAGAIN
             (with_script [AnsAddEvent 0; AnsWake [0%nat]; answer_ok 7]
                (emit (ActSys fn) w0)) in
  ∃ timer w_y c,
    do_io_until_resumed 3 READ 100 0 w = Some (timer, w_y)
    ∧ (timer = None ↔ 100 = u64_minus_one)
    ∧ tinfos w_y !! 0%nat = Some c
    ∧ (∀ t, timer = Some t →
         timers (disarmed timer w_y) !! t = None
         ∧ trace (disarmed timer w_y) = trace w_y ++ [ActTimerCancel t])
    ∧ do_io_retry 5 3 fn "read" READ 100 0 w0
      = if c =? 0
        then do_io_retry 4 3 fn "read" READ 100 0 (disarmed timer w_y)
        else Some (-1, with_errno c (disarmed timer w_y)).
Proof.
  intros fn w0 w.
  exact (do_io_after_yield 4 3 fn "read" READ 100 0 w0 w [0%nat]
           [answer_ok 7] 0 eq_refl eq_refl eq_refl eq_refl eq_refl).
Defined.

(** ** A registration that fails in [connect_with_timeout] *)

Lemma connect_so_error_run fd w r rest :
  script w = AnsSys r :: rest →
  ∃ w', connect_so_error fd w
        = Some (if k_ret r =? -1 then -1
                else if default 0 (k_out r) =? 0 then 0 else -1, w')
        ∧ script w' = rest
        ∧ timers w' = timers w.
Proof.
  intros Hs. unfold connect_so_error, getsockopt_out, sys. run_hook.
  rewrite Hs.
  destruct (k_ret r =? -1); [|destruct (default 0 (k_out r) =? 0)];
    destruct (k_errno r); eexists; (split; [reflexivity|]); auto.
Qed.

(** In [connect_with_timeout], when [addEvent] returns non-zero the
    timer, if one was armed, is cancelled and the error is logged; what is
    returned is then what the [SO_ERROR] check gives: 0 if the option reads
    0. *)
Lemma connect_wait_addEvent_fails fd timeout_ms tinfo w rt r rest :
  iom w = true →
  script w = AnsAddEvent rt :: AnsSys r :: rest →
  rt ≠ 0 →
  ∃ timer w',
    connect_wait fd timeout_ms tinfo w
    = Some (if k_ret r =? -1 then -1
            else if default 0 (k_out r) =? 0 then 0 else -1, w')
    ∧ (timer = None ↔ timeout_ms = u64_minus_one)
    ∧ (∀ t, timer = Some t → timers w' !! t = None)
    ∧ script w' = rest.
Proof.
  intros Hiom Hs Hrt.
  set (cb := CbConnectTimeout tinfo fd).
  pose proof (arm_and_register timeout_ms cb tinfo fd WRITE w rt _ Hiom Hs)
    as Hreg.
  set (timer := (armed timeout_ms cb tinfo w).1) in *.
  set (w2 := with_script _ _) in Hreg.
  destruct (connect_so_error_run fd
              (emit (ActLogError "connect" fd) (disarmed timer w2)) r rest)
    as (w' & Hrun & Hscript & Htimers).
  { destruct timer; reflexivity. }
  exists timer, w'. split; [|split; [apply armed_handle|split]].
  - unfold connect_wait. fold cb.
    unfold mbind, M_bind, mret, M_ret in Hreg |- *.
    destruct (arm_condition_timer timeout_ms cb tinfo w) as [[tm w1]|];
      [|discriminate Hreg].
    destruct (addEvent fd WRITE w1) as [[rt' w2']|]; [|discriminate Hreg].
    injection Hreg as -> -> ->.
    apply Z.eqb_neq in Hrt. rewrite Hrt.
    rewrite cancel_if_armed_run. unfold log_error, do_emit. exact Hrun.
  - intros t Ht. rewrite Htimers, Ht. cbn. apply lookup_delete_eq.
  - exact Hscript.
Qed.

(** C5, in [connect_with_timeout]: the real [connect] answers
    [EINPROGRESS], [addEvent] returns -1 and [SO_ERROR] reads 0.  The timer
    is cancelled and the error is logged, but the function goes on to the
    [SO_ERROR] check and returns 0, not -1. *)
Theorem connect_addEvent_failure_returns_0 :
  let w := sample_world {[3 := live_socket]}
             [answer_err EINPROGRESS; AnsAddEvent (-1);
              AnsSys {| k_ret := 0; k_errno := None; k_out := Some 0 |}] in
  ∃ w', connect 3 4096 16 w = Some (0, w')
        ∧ trace w' = [ActSys (connect_f 3 4096 16);
                      ActAddConditionTimer 0 5000 0;
                      ActAddEvent 3 WRITE;
                      ActTimerCancel 0;
                      ActLogError "connect" 3;
                      ActSys (getsockopt_f 3 SOL_SOCKET SO_ERROR 0 0)]
        ∧ timers w' !! 0%nat = None
        ∧ errno w' = EINPROGRESS.
Proof.
  intros w. eexists. split; [vm_compute; reflexivity|].
  split; [reflexivity|]. split; vm_compute; reflexivity.
Qed.

(** ** The bound on the loops of [do_io]

    [do_io] runs [do_io_retry] with one more unit of fuel than there are
    answers left.  Every turn of either loop uses up an answer, so that any
    larger bound gives the same run: a run is undetermined only where the
    script, or the IOManager, is missing. *)

Lemma real_consumes fn w n w' :
  real fn w = Some (n, w') → S (length (script w')) = length (script w).
Proof.
  unfold real, sys. run_hook.
  destruct (script w) as [|[r| |] rest]; try discriminate.
  intros [= <- <-]. destruct (k_errno r); reflexivity.
Qed.

Lemma do_io_eintr_consumes fn : ∀ fuel n w n' w',
  do_io_eintr fuel fn n w = Some (n', w') →
  (length (script w') ≤ length (script w))%nat.
Proof.
  induction fuel as [|fuel IH]; intros n w n' w'.
  - unfold do_io_eintr. run_hook.
    destruct ((n =? -1) && (errno w =? EINTR)); [discriminate|].
    intros [= <- <-]. lia.
  - rewrite do_io_eintr_unfold. run_hook.
    destruct ((n =? -1) && (errno w =? EINTR)); [|intros [= <- <-]; lia].
    destruct (real fn w) as [[n1 w1]|] eqn:Hr; [|discriminate].
    intros H. apply IH in H. apply real_consumes in Hr. lia.
Qed.

Lemma do_io_eintr_fuel fn : ∀ fuel1 fuel2 n w,
  (length (script w) < fuel1)%nat →
  (length (script w) < fuel2)%nat →
  do_io_eintr fuel1 fn n w = do_io_eintr fuel2 fn n w.
Proof.
  induction fuel1 as [|fuel1 IH]; intros fuel2 n w H1 H2; [lia|].
  destruct fuel2 as [|fuel2]; [lia|].
  rewrite !do_io_eintr_unfold. run_hook.
  destruct ((n =? -1) && (errno w =? EINTR)); [|reflexivity].
  destruct (real fn w) as [[n1 w1]|] eqn:Hr; [|reflexivity].
  apply real_consumes in Hr. apply IH; lia.
Qed.

Lemma addEvent_consumes fd ev w rt w' :
  addEvent fd ev w = Some (rt, w') → S (length (script w')) = length (script w).
Proof.
  unfold addEvent, through_iom, undetermined. run_hook.
  destruct (iom w); [|discriminate].
  destruct (script w) as [|[| |] rest]; try discriminate.
  intros [= <- <-]. reflexivity.
Qed.

Lemma yield_consumes w w' :
  yield w = Some (tt, w') → S (length (script w')) = length (script w).
Proof.
  unfold yield. destruct (script w) as [|[| |ts] rest] eqn:Hs; try discriminate.
  intros H.
  destruct (Timers_expire_resumes 0 ts (with_script rest (emit ActYield w)))
    as (w2 & Hw2 & _ & _ & Hscript & _).
  rewrite Hw2 in H. injection H as <-. rewrite Hscript. reflexivity.
Qed.

Lemma do_io_arm_script to tinfo fd ev w timer w' :
  do_io_arm to tinfo fd ev w = Some (timer, w') → script w' = script w.
Proof.
  unfold do_io_arm, arm_condition_timer, addConditionTimer, through_iom,
    undetermined.
  destruct (negb (to =? u64_minus_one)); run_hook.
  - destruct (iom w); [|discriminate]. intros [= <- <-]. reflexivity.
  - intros [= <- <-]. reflexivity.
Qed.

Lemma do_io_settle_ext retry1 retry2 fd name ev to tinfo n w :
  (∀ w', (length (script w') < length (script w))%nat →
         retry1 w' = retry2 w') →
  do_io_settle retry1 fd name ev to tinfo n w
  = do_io_settle retry2 fd name ev to tinfo n w.
Proof.
  intros Hext. unfold do_io_settle. run_hook.
  destruct ((n =? -1) && (errno w =? EAGAIN)); [|reflexivity].
  destruct (do_io_arm to tinfo fd ev w) as [[timer w1]|] eqn:Harm;
    [|reflexivity].
  apply do_io_arm_script in Harm.
  destruct (addEvent fd ev w1) as [[rt w2]|] eqn:Hadd; [|reflexivity].
  apply addEvent_consumes in Hadd.
  destruct (SYLAR_UNLIKELY rt); [reflexivity|].
  destruct (yield w2) as [[[] w3]|] eqn:Hy; [|reflexivity].
  apply yield_consumes in Hy.
  unfold do_io_resume, tinfo_cancelled. run_hook.
  destruct timer as [t|]; cbn.
  - destruct (tinfos w3 !! tinfo) as [c|]; [|reflexivity].
    destruct (negb (c =? 0)); [reflexivity|].
    apply Hext. cbn. rewrite <- Harm. lia.
  - destruct (tinfos w3 !! tinfo) as [c|]; [|reflexivity].
    destruct (negb (c =? 0)); [reflexivity|].
    apply Hext. rewrite <- Harm. lia.
Qed.

Lemma do_io_call_consumes fn fuel w n w' :
  do_io_call fuel fn w = Some (n, w') →
  (length (script w') < length (script w))%nat.
Proof.
  unfold do_io_call, mbind, M_bind.
  destruct (real fn w) as [[n1 w1]|] eqn:Hr; [|discriminate].
  intros Hl. apply real_consumes in Hr. apply do_io_eintr_consumes in Hl. lia.
Qed.

Lemma do_io_call_fuel fn fuel1 fuel2 w :
  (length (script w) ≤ fuel1)%nat →
  (length (script w) ≤ fuel2)%nat →
  do_io_call fuel1 fn w = do_io_call fuel2 fn w.
Proof.
  intros H1 H2. unfold do_io_call, mbind, M_bind.
  destruct (real fn w) as [[n1 w1]|] eqn:Hr; [|reflexivity].
  apply real_consumes in Hr. apply do_io_eintr_fuel; lia.
Qed.

Lemma do_io_retry_fuel fd fn name ev to tinfo : ∀ fuel1 fuel2 w,
  (length (script w) < fuel1)%nat →
  (length (script w) < fuel2)%nat →
  do_io_retry fuel1 fd fn name ev to tinfo w
  = do_io_retry fuel2 fd fn name ev to tinfo w.
Proof.
  induction fuel1 as [|fuel1 IH]; intros fuel2 w H1 H2; [lia|].
  destruct fuel2 as [|fuel2]; [lia|].
  rewrite !do_io_retry_unfold. unfold mbind, M_bind.
  rewrite (do_io_call_fuel fn fuel1 fuel2) by lia.
  destruct (do_io_call fuel2 fn w) as [[n w1]|] eqn:Hcall; [|reflexivity].
  apply do_io_call_consumes in Hcall.
  apply do_io_settle_ext. intros w' Hw'. apply IH; lia.
Qed.

Lemma do_io_fuel_adequate fd fn name ev to tinfo fuel w :
  (length (script w) < fuel)%nat →
  do_io_retry fuel fd fn name ev to tinfo w
  = do_io_retry (S (length (script w))) fd fn name ev to tinfo w.
Proof. intros H. apply do_io_retry_fuel; lia. Qed.

(** ** Scenarios *)

(** A [read] with a receive timeout of 100 ms on an idle socket: the timer
    expires during the suspension and [read] returns -1 with
    [errno = ETIMEDOUT]. *)
Example read_times_out :
  let w := sample_world {[3 := live_socket]}
             [answer_err EAGAIN; AnsAddEvent 0; AnsWake [0%nat]] in
  ∃ w', read 3 4096 16 w = Some (-1, w')
        ∧ errno w' = ETIMEDOUT
        ∧ trace w' = [ActSys (read_f 3 4096 16);
                      ActAddConditionTimer 0 100 0;
                      ActAddEvent 3 READ; ActYield;
                      ActCancelEvent 3 READ; ActTimerCancel 0].
Proof.
  intros w. eexists. split; [vm_compute; reflexivity|].
  split; reflexivity.
Qed.

(** The same [read] when the socket becomes readable first: the timer is
    cancelled and the real [read] is called again. *)
Example read_after_readiness :
  let w := sample_world {[3 := live_socket]}
             [answer_err EAGAIN; AnsAddEvent 0; AnsWake []; answer_ok 7] in
  ∃ w', read 3 4096 16 w = Some (7, w')
        ∧ trace w' = [ActSys (read_f 3 4096 16);
                      ActAddConditionTimer 0 100 0;
                      ActAddEvent 3 READ; ActYield; ActTimerCancel 0;
                      ActSys (read_f 3 4096 16)].
Proof.
  intros w. eexists. split; [vm_compute; reflexivity|]. reflexivity.
Qed.

(** A [read] whose registration fails returns -1 once the timer is
    cancelled. *)
Example read_registration_fails :
  let w := sample_world {[3 := live_socket]}
             [answer_err EAGAIN; AnsAddEvent (-1)] in
  ∃ w', read 3 4096 16 w = Some (-1, w')
        ∧ trace w' = [ActSys (read_f 3 4096 16);
                      ActAddConditionTimer 0 100 0;
                      ActAddEvent 3 READ; ActLogError "read" 3;
                      ActTimerCancel 0].
Proof.
  intros w. eexists. split; [vm_compute; reflexivity|]. reflexivity.
Qed.

(** [sleep(1)] on a hook-enabled thread arms a timer of 1000 ms, yields and
    returns 0 when the timer has scheduled the fiber again. *)
Example sleep_one_second :
  let w := sample_world ∅ [AnsWake [0%nat]] in
  ∃ w', sleep 1 w = Some (0, w')
        ∧ trace w' = [ActAddTimer 0 1000; ActYield; ActSchedule].
Proof.
  intros w. eexists. split; [vm_compute; reflexivity|]. reflexivity.
Qed.

(** ** What the hooks keep *)

Lemma bind_Some {A B : Type} (m : M A) (f : A → M B) w b w' :
  (m ≫= f) w = Some (b, w') →
  ∃ a w1, m w = Some (a, w1) ∧ f a w1 = Some (b, w').
Proof.
  unfold mbind, M_bind. destruct (m w) as [[a w1]|]; [|discriminate].
  intros H. eauto.
Qed.

Create HintDb keeps discriminated.

Lemma keeps_but_refl T w : keeps_but T w w.
Proof. unfold keeps_but. intuition. Qed.

Lemma keeps_but_trans T w1 w2 w3 :
  keeps_but T w1 w2 → keeps_but T w2 w3 → keeps_but T w1 w3.
Proof.
  unfold keeps_but.
  intros (? & ? & ? & ? & Ht1 & Hi1) (? & ? & ? & ? & Ht2 & Hi2).
  repeat split; try congruence.
  - intros k x Hk. destruct (Ht2 k x Hk) as [|Hk2]; [auto|]. apply Ht1, Hk2.
  - intros Hk. apply Hi1, Hi2, Hk.
  - intros Hk. apply Hi2, Hi1, Hk.
Qed.

Lemma keeps_but_weaken T w w' : keeps_but None w w' → keeps_but T w w'.
Proof.
  unfold keeps_but. intros (? & ? & ? & ? & Ht & Hi).
  repeat split; try assumption; try apply Hi.
  intros k x Hk. destruct (Ht k x Hk) as [|]; [discriminate | auto].
Qed.

Lemma keeps_but_disarmed T w w' :
  keeps_but T w w' → keeps_but None w (disarmed T w').
Proof.
  unfold keeps_but. intros (? & ? & ? & ? & Ht & Hi).
  destruct T as [t|]; cbn.
  - repeat split; try assumption; try apply Hi.
    intros k x Hk. right. apply lookup_delete_Some in Hk as [Hne Hk].
    destruct (Ht k x Hk) as [[= ->]|]; [contradiction | assumption].
  - repeat split; try assumption; apply Hi.
Qed.

Lemma keeps_but_armed to cb tinfo w :
  keeps_but (armed to cb tinfo w).1 w (armed to cb tinfo w).2.
Proof.
  unfold armed. destruct (to =? u64_minus_one); cbn.
  - apply keeps_but_refl.
  - unfold keeps_but. cbn. repeat split; try tauto.
    intros k x Hk. apply lookup_insert_Some in Hk as [[<- _]|[_ Hk]]; auto.
Qed.

(** Steps that change only [errno], the trace or the script. *)
Lemma keeps_only_log T w w' :
  FdMgr w' = FdMgr w → t_hook_enable w' = t_hook_enable w →
  s_connect_timeout w' = s_connect_timeout w → iom w' = iom w →
  timers w' = timers w → tinfos w' = tinfos w →
  keeps_but T w w'.
Proof.
  intros. unfold keeps_but. repeat split; try assumption.
  - intros k x Hk. right. congruence.
  - congruence.
  - congruence.
Qed.

Lemma sys_keeps T c w r w' : sys c w = Some (r, w') → keeps_but T w w'.
Proof.
  unfold sys. destruct (script w) as [|[a| |] rest]; try discriminate.
  intros [= <- <-]. destruct (k_errno a); apply keeps_only_log; reflexivity.
Qed.

Lemma real_keeps T c w n w' : real c w = Some (n, w') → keeps_but T w w'.
Proof.
  unfold real. intros H. apply bind_Some in H as (r & w1 & Hs & [= <- <-]).
  eapply sys_keeps, Hs.
Qed.

Lemma addEvent_keeps T fd ev w rt w' :
  addEvent fd ev w = Some (rt, w') → keeps_but T w w'.
Proof.
  unfold addEvent, through_iom, undetermined. run_hook.
  destruct (iom w); [|discriminate].
  destruct (script w) as [|[| |] rest]; try discriminate.
  intros [= <- <-]. apply keeps_only_log; reflexivity.
Qed.

Lemma timeout_cb_keeps T winfo fd ev w w' :
  do_io_timeout_cb winfo fd ev w = Some (tt, w') → keeps_but T w w'.
Proof.
  unfold do_io_timeout_cb. run_hook.
  destruct (tinfos w !! winfo) as [c|] eqn:Hw;
    [|intros [= <-]; apply keeps_but_refl].
  destruct (c =? 0); cbn; [|intros [= <-]; apply keeps_but_refl].
  intros [= <-]. unfold keeps_but. cbn. repeat split; try tauto.
  - intros Hk. rewrite lookup_alter in Hk.
    case_decide; subst; [rewrite Hw; eauto | exact Hk].
  - intros Hk. rewrite lookup_alter.
    case_decide; subst; [rewrite Hw; cbn; eauto | exact Hk].
Qed.

Lemma run_callback_keeps T cb w w' :
  run_callback cb w = Some (tt, w') → keeps_but T w w'.
Proof.
  destruct cb; cbn.
  - intros [= <-]. apply keeps_only_log; reflexivity.
  - apply timeout_cb_keeps.
  - apply (timeout_cb_keeps T winfo fd WRITE).
Qed.

Lemma Timer_expire_keeps T x w w' :
  Timer_expire x w = Some (tt, w') → keeps_but T w w'.
Proof.
  unfold Timer_expire.
  destruct (timers w !! x) as [tm|] eqn:Hx;
    [|intros [= <-]; apply keeps_but_refl].
  set (w1 := with_timers _ _ w).
  assert (H1 : keeps_but T w w1).
  { unfold keeps_but. subst w1. cbn. repeat split; try tauto.
    intros k y Hk. right. apply lookup_delete_Some in Hk. tauto. }
  destruct (t_cond tm) as [c|]; [destruct (tinfos w1 !! c)|].
  - intros H. eapply keeps_but_trans; [exact H1|]. eapply run_callback_keeps, H.
  - intros [= <-]. exact H1.
  - intros H. eapply keeps_but_trans; [exact H1|]. eapply run_callback_keeps, H.
Qed.

Lemma Timers_expire_keeps T ts : ∀ w w',
  Timers_expire ts w = Some (tt, w') → keeps_but T w w'.
Proof.
  induction ts as [|x ts IH]; intros w w'; cbn.
  - intros [= <-]. apply keeps_but_refl.
  - intros H. apply bind_Some in H as ([] & w1 & Hx & Hts).
    eapply keeps_but_trans; [eapply Timer_expire_keeps, Hx | eapply IH, Hts].
Qed.

Lemma yield_keeps T w w' : yield w = Some (tt, w') → keeps_but T w w'.
Proof.
  unfold yield. destruct (script w) as [|[| |ts] rest]; try discriminate.
  intros H. apply Timers_expire_keeps with (T := T) in H.
  eapply keeps_but_trans; [|exact H]. apply keeps_only_log; reflexivity.
Qed.

Lemma do_io_eintr_keeps fn : ∀ fuel n w n' w',
  do_io_eintr fuel fn n w = Some (n', w') → keeps_but None w w'.
Proof.
  induction fuel as [|fuel IH]; intros n w n' w'.
  - unfold do_io_eintr. run_hook.
    destruct ((n =? -1) && (errno w =? EINTR)); [discriminate|].
    intros [= <- <-]. apply keeps_but_refl.
  - rewrite do_io_eintr_unfold. run_hook.
    destruct ((n =? -1) && (errno w =? EINTR));
      [|intros [= <- <-]; apply keeps_but_refl].
    destruct (real fn w) as [[n1 w1]|] eqn:Hr; [|discriminate].
    intros H. eapply keeps_but_trans; [eapply real_keeps, Hr | eapply IH, H].
Qed.

Lemma do_io_call_keeps fn fuel w n w' :
  do_io_call fuel fn w = Some (n, w') → keeps_but None w w'.
Proof.
  unfold do_io_call. intros H. apply bind_Some in H as (n1 & w1 & Hr & Hl).
  eapply keeps_but_trans; [eapply real_keeps, Hr | eapply do_io_eintr_keeps, Hl].
Qed.

Lemma arm_condition_timer_armed to cb tinfo w timer w' :
  arm_condition_timer to cb tinfo w = Some (timer, w') →
  (timer, w') = armed to cb tinfo w.
Proof.
  unfold arm_condition_timer, armed, addConditionTimer, through_iom,
    undetermined.
  destruct (to =? u64_minus_one); run_hook.
  - intros [= <- <-]. reflexivity.
  - destruct (iom w); [|discriminate]. intros [= <- <-]. reflexivity.
Qed.

Lemma arm_condition_timer_keeps to cb tinfo w timer w' :
  arm_condition_timer to cb tinfo w = Some (timer, w') →
  keeps_but timer w w'.
Proof.
  intros H. apply arm_condition_timer_armed in H.
  pose proof (keeps_but_armed to cb tinfo w) as Hk. rewrite <- H in Hk.
  exact Hk.
Qed.

Lemma tinfo_cancelled_same t w c w' :
  tinfo_cancelled t w = Some (c, w') → w' = w.
Proof.
  unfold tinfo_cancelled. destruct (tinfos w !! t); [|discriminate].
  intros [= _ <-]. reflexivity.
Qed.

Lemma with_errno_keeps T e w : keeps_but T w (with_errno e w).
Proof. apply keeps_only_log; reflexivity. Qed.

Lemma emit_keeps T a w : keeps_but T w (emit a w).
Proof. apply keeps_only_log; reflexivity. Qed.

Lemma do_io_settle_keeps retry fd name ev to tinfo n w n' w' :
  (∀ w1 n1 w2, retry w1 = Some (n1, w2) → keeps_but None w1 w2) →
  do_io_settle retry fd name ev to tinfo n w = Some (n', w') →
  keeps_but None w w'.
Proof.
  intros Hretry. unfold do_io_settle, do_io_arm. run_hook.
  destruct ((n =? -1) && (errno w =? EAGAIN));
    [|intros [= <- <-]; apply keeps_but_refl].
  destruct (arm_condition_timer _ _ _ w) as [[timer w1]|] eqn:Harm;
    [|discriminate].
  apply arm_condition_timer_keeps in Harm.
  destruct (addEvent fd ev w1) as [[rt w2]|] eqn:Hadd; [|discriminate].
  apply (addEvent_keeps timer) in Hadd.
  assert (H2 : keeps_but timer w w2) by (eapply keeps_but_trans; eauto).
  destruct (SYLAR_UNLIKELY rt).
  - rewrite cancel_if_armed_run. intros [= <- <-].
    apply keeps_but_disarmed.
    eapply keeps_but_trans; [exact H2 | apply emit_keeps].
  - destruct (yield w2) as [[[] w3]|] eqn:Hy; [|discriminate].
    apply (yield_keeps timer) in Hy.
    assert (H3 : keeps_but timer w w3) by (eapply keeps_but_trans; eauto).
    unfold do_io_resume. run_hook. rewrite cancel_if_armed_run.
    destruct (tinfo_cancelled tinfo (disarmed timer w3)) as [[c w4]|] eqn:Hc;
      [|discriminate].
    apply tinfo_cancelled_same in Hc. subst w4.
    apply keeps_but_disarmed in H3.
    destruct (negb (c =? 0)).
    + intros [= <- <-].
      eapply keeps_but_trans; [exact H3 | apply with_errno_keeps].
    + intros H. eapply keeps_but_trans; [exact H3 | eapply Hretry, H].
Qed.

Lemma do_io_retry_keeps fd fn name ev to tinfo : ∀ fuel w n w',
  do_io_retry fuel fd fn name ev to tinfo w = Some (n, w') →
  keeps_but None w w'.
Proof.
  induction fuel as [|fuel IH]; intros w n w'; [discriminate|].
  rewrite do_io_retry_unfold. intros H.
  apply bind_Some in H as (n1 & w1 & Hcall & Hsettle).
  eapply keeps_but_trans; [eapply do_io_call_keeps, Hcall|].
  eapply do_io_settle_keeps; [|exact Hsettle]. exact IH.
Qed.

(** ** Suspensions that end by readiness and by timeout *)

Lemma yield_readiness w rest :
  script w = AnsWake [] :: rest →
  yield w = Some (tt, with_script rest (emit ActYield w)).
Proof. intros Hs. unfold yield. rewrite Hs. reflexivity. Qed.

(** The timer of the operation expires during the suspension: its callback
    marks the [timer_info] and cancels the event. *)
Lemma yield_timeout w t rest ms cb tinfo fd ev :
  script w = AnsWake [t] :: rest →
  timers w !! t = Some {| t_ms := ms; t_cb := cb; t_cond := Some tinfo |} →
  cb = CbIoTimeout tinfo fd ev ∨ (cb = CbConnectTimeout tinfo fd ∧ ev = WRITE) →
  tinfos w !! tinfo = Some 0 →
  yield w
  = Some (tt,
          with_trace (trace w ++ [ActYield; ActCancelEvent fd ev])
            (with_tinfos (<[tinfo := ETIMEDOUT]> (tinfos w)) (tinfo_next w)
               (with_timers (delete t (timers w)) (timer_next w)
                  (with_script rest w)))).
Proof.
  intros Hs Ht Hcb Hlive. unfold yield. rewrite Hs.
  cbn [Timers_expire]. unfold mbind, M_bind, Timer_expire. cbn.
  rewrite Ht. cbn. rewrite Hlive.
  assert (Hrun : ∀ w1, tinfos w1 !! tinfo = Some 0 →
            run_callback cb w1
            = Some (tt, with_trace (trace w1 ++ [ActCancelEvent fd ev])
                          (with_tinfos (<[tinfo := ETIMEDOUT]> (tinfos w1))
                             (tinfo_next w1) w1))).
  { intros w1 H1.
    destruct Hcb as [-> | [-> ->]]; cbn;
      unfold do_io_timeout_cb, connect_timeout_cb; run_hook; rewrite H1; cbn;
      rewrite (alter_lookup_insert _ _ _ _ H1); reflexivity. }
  rewrite Hrun by exact Hlive. cbn. rewrite <- app_assoc. reflexivity.
Qed.

Section DoIoRuns.
Variables (fd : Z) (fn : syscall) (name : string) (ev : Event) (to : Z)
          (tinfo : nat).

Lemma do_io_call_eagain fuel w r rest :
  script w = AnsSys r :: rest →
  eagain_answer r →
  do_io_call fuel fn w
  = Some (-1, with_errno EAGAIN (with_script rest (emit (ActSys fn) w))).
Proof.
  intros Hs [Hret Herr].
  rewrite (do_io_call_eintr fn fuel w [] r rest Hs);
    [| constructor | right; exists EAGAIN; split; [exact Herr | discriminate]
     | cbn; lia].
  rewrite Hret. unfold after_calls. rewrite Herr. reflexivity.
Qed.

Lemma do_io_call_final fuel w r rest :
  script w = AnsSys r :: rest →
  final_answer r →
  do_io_call fuel fn w = Some (k_ret r, after_calls fn 0 r rest w)
  ∧ (k_ret r ≠ -1 ∨ errno (after_calls fn 0 r rest w) ≠ EAGAIN).
Proof.
  intros Hs Hr. split.
  - apply (do_io_call_eintr fn fuel w [] r rest Hs); [constructor | | cbn; lia].
    destruct Hr as [H | (e & He & Hne & _)]; [left; exact H|right; eauto].
  - destruct Hr as [H | (e & He & _ & Hne)]; [left; exact H|right].
    unfold after_calls. rewrite He. exact Hne.
Qed.

(** One round that ends by timeout. *)
Lemma do_io_retry_times_out fuel w r rest :
  script w = AnsSys r :: AnsAddEvent 0 :: AnsWake [timer_next w] :: rest →
  eagain_answer r →
  iom w = true →
  to ≠ u64_minus_one →
  tinfos w !! tinfo = Some 0 →
  ∃ w', do_io_retry (S fuel) fd fn name ev to tinfo w = Some (-1, w')
        ∧ errno w' = ETIMEDOUT
        ∧ trace w' = trace w ++ [ActSys fn;
                                 ActAddConditionTimer (timer_next w) to tinfo;
                                 ActAddEvent fd ev; ActYield;
                                 ActCancelEvent fd ev;
                                 ActTimerCancel (timer_next w)]
        ∧ script w' = rest
        ∧ timers w' !! timer_next w = None
        ∧ tinfos w' = <[tinfo := ETIMEDOUT]> (tinfos w)
        ∧ tinfo_next w' = tinfo_next w.
Proof.
  intros Hs Hr Hiom Hto Hlive.
  rewrite (do_io_retry_after_call _ _ _ _ _ _ _ _ _ _
             (do_io_call_eagain fuel w r _ Hs Hr)).
  rewrite (do_io_settle_registers fd name ev to tinfo _
             (with_errno EAGAIN
                (with_script (AnsAddEvent 0 :: AnsWake [timer_next w] :: rest)
                   (emit (ActSys fn) w)))
             0 (AnsWake [timer_next w] :: rest) eq_refl Hiom eq_refl).
  cbn zeta. cbn [Z.eqb].
  apply Z.eqb_neq in Hto. unfold armed. rewrite Hto. cbn [fst snd].
  unfold mbind, M_bind.
  erewrite (yield_timeout _ (timer_next w) rest to _ tinfo fd ev);
    [| reflexivity | cbn; apply lookup_insert_eq | left; reflexivity
     | exact Hlive].
  erewrite do_io_resume_run by (cbn; apply lookup_insert_eq).
  cbn [Z.eqb ETIMEDOUT].
  eexists. split; [reflexivity|]. cbn.
  repeat split.
  - rewrite <- !app_assoc. reflexivity.
  - apply lookup_delete_eq.
Qed.
End DoIoRuns.

Lemma length_eagain_rounds rounds :
  length (eagain_rounds rounds) = (3 * length rounds)%nat.
Proof.
  unfold eagain_rounds. induction rounds as [|a rounds IH]; [reflexivity|].
  cbn [flat_map length app]. rewrite IH. lia.
Qed.

Section DoIoRounds.
Variables (fd : Z) (fn : syscall) (name : string) (ev : Event) (to : Z)
          (tinfo : nat) (r : kresp) (rest : list answer).

(** Rounds that end by readiness: after each the code is back at [retry]
    with a fresh timer to arm. *)
Lemma do_io_retry_rounds rounds : ∀ fuel w,
  script w = eagain_rounds rounds ++ AnsSys r :: rest →
  Forall eagain_answer rounds →
  final_answer r →
  iom w = true →
  tinfos w !! tinfo = Some 0 →
  (length rounds ≤ fuel)%nat →
  ∃ w', do_io_retry (S fuel) fd fn name ev to tinfo w = Some (k_ret r, w')
        ∧ trace w' = trace w
                     ++ rounds_trace fn fd ev to tinfo (timer_next w)
                          (length rounds)
                     ++ [ActSys fn]
        ∧ script w' = rest
        ∧ tinfos w' = tinfos w
        ∧ tinfo_next w' = tinfo_next w.
Proof.
  induction rounds as [|a rounds IH]; intros fuel w Hs Hrounds Hr Hiom Hlive Hf.
  - cbn in Hs. destruct (do_io_call_final fn fuel w r rest Hs Hr) as [Hcall Hready].
    rewrite (do_io_retry_after_call _ _ _ _ _ _ _ _ _ _ Hcall).
    rewrite do_io_settle_ready by exact Hready.
    eexists. split; [reflexivity|].
    unfold after_calls. destruct (k_errno r); cbn; auto.
  - destruct fuel as [|fuel]; [cbn in Hf; lia|].
    inversion Hrounds as [|? ? Ha Hrounds']; subst.
    cbn in Hs.
    rewrite (do_io_retry_after_call _ _ _ _ _ _ _ _ _ _
               (do_io_call_eagain fn (S fuel) w a _ Hs Ha)).
    rewrite (do_io_settle_registers fd name ev to tinfo _
               (with_errno EAGAIN
                  (with_script (AnsAddEvent 0 :: AnsWake []
                                  :: eagain_rounds rounds ++ AnsSys r :: rest)
                     (emit (ActSys fn) w)))
               0 (AnsWake [] :: eagain_rounds rounds ++ AnsSys r :: rest)
               eq_refl Hiom eq_refl).
    cbn zeta. cbn [Z.eqb]. unfold mbind, M_bind.
    erewrite yield_readiness by reflexivity.
    rewrite (do_io_resume_run tinfo _ _ _ 0).
    2:{ unfold armed. destruct (to =? u64_minus_one); exact Hlive. }
    cbn [Z.eqb].
    match goal with |- context [do_io_retry (S fuel) _ _ _ _ _ _ ?w4] =>
      destruct (IH fuel w4) as (w' & Hrun & Htrace & Hscript & Htinfos & Hnext)
    end.
    + unfold armed. destruct (to =? u64_minus_one); reflexivity.
    + exact Hrounds'.
    + exact Hr.
    + unfold armed. destruct (to =? u64_minus_one); exact Hiom.
    + unfold armed. destruct (to =? u64_minus_one); exact Hlive.
    + cbn in Hf. lia.
    + exists w'. split; [exact Hrun|].
      rewrite Htrace, Hscript, Htinfos, Hnext. cbn [length rounds_trace].
      unfold armed. destruct (to =? u64_minus_one); cbn;
        rewrite <- !app_assoc; auto.
Qed.
End DoIoRounds.

(** ** The blocking path of [do_io], as a whole *)

Lemma do_io_blocking fd fn name ev so w ctx :
  t_hook_enable w = true →
  FdMgr w !! fd = Some ctx →
  isClose ctx = false →
  isSocket ctx = true →
  getUserNonblock ctx = false →
  do_io fd fn name ev so w
  = match do_io_retry (S (length (script w))) fd (fn fd) name ev
            (getTimeout so ctx) (tinfo_next w)
            (with_tinfos (<[tinfo_next w := 0]> (tinfos w))
                         (S (tinfo_next w)) w) with
    | Some (n, w1) =>
        Some (n, with_tinfos (delete (tinfo_next w) (tinfos w1))
                             (tinfo_next w1) w1)
    | None => None
    end.
Proof.
  intros Hen Hctx Hopen Hsock Hblock.
  unfold do_io, tinfo_new, tinfo_free, answers_left. run_hook.
  rewrite Hen. cbn. rewrite Hctx. cbn. rewrite Hopen, Hsock, Hblock. cbn.
  destruct (do_io_retry _ _ _ _ _ _ _ _) as [[n w1]|]; reflexivity.
Qed.

(** X2: a blocking call whose timeout expires.  On a live blocking socket
    with a timeout cached for the direction, when the real function answers
    [EAGAIN] and the timer of the call expires during the suspension,
    [do_io] returns -1 with [errno = ETIMEDOUT]; the real function has been
    called once, and the descriptor stays in the table. *)
Theorem do_io_times_out fd fn name ev so w ctx r rest :
  t_hook_enable w = true →
  FdMgr w !! fd = Some ctx →
  isClose ctx = false →
  isSocket ctx = true →
  getUserNonblock ctx = false →
  getTimeout so ctx ≠ u64_minus_one →
  iom w = true →
  eagain_answer r →
  script w = AnsSys r :: AnsAddEvent 0 :: AnsWake [timer_next w] :: rest →
  ∃ w', do_io fd fn name ev so w = Some (-1, w')
        ∧ errno w' = ETIMEDOUT
        ∧ trace w' = trace w
                     ++ [ActSys (fn fd);
                         ActAddConditionTimer (timer_next w)
                           (getTimeout so ctx) (tinfo_next w);
                         ActAddEvent fd ev; ActYield;
                         ActCancelEvent fd ev;
                         ActTimerCancel (timer_next w)]
        ∧ script w' = rest
        ∧ FdMgr w' !! fd = Some ctx.
Proof.
  intros Hen Hctx Hopen Hsock Hblock Hto Hiom Hr Hs.
  rewrite (do_io_blocking fd fn name ev so w ctx Hen Hctx Hopen Hsock Hblock).
  set (w0 := with_tinfos _ _ w).
  destruct (do_io_retry_times_out fd (fn fd) name ev (getTimeout so ctx)
              (tinfo_next w) (length (script w)) w0 r rest)
    as (w1 & Hrun & Herrno & Htrace & Hscript & _ & _ & _);
    [exact Hs | exact Hr | exact Hiom | exact Hto
     | subst w0; cbn; apply lookup_insert_eq |].
  rewrite Hrun. eexists. split; [reflexivity|]. cbn.
  repeat split; try assumption.
  apply do_io_retry_keeps in Hrun. destruct Hrun as (HFd & _).
  rewrite HFd. exact Hctx.
Qed.

Lemma do_io_times_out_witness :
  let w := sample_world {[3 := live_socket]}
             [answer_err EAGAIN; AnsAddEvent 0; AnsWake [0%nat]] in
  ∃ w', do_io 3 (λ fd, read_f fd 4096 16) "read" READ SO_RCVTIMEO w
        = Some (-1, w')
        ∧ errno w' = ETIMEDOUT
        ∧ trace w' = [ActSys (read_f 3 4096 16);
                      ActAddConditionTimer 0 100 0;
                      ActAddEvent 3 READ; ActYield;
                      ActCancelEvent 3 READ; ActTimerCancel 0]
        ∧ script w' = []
        ∧ FdMgr w' !! 3 = Some live_socket.
Proof.
  intros w.
  apply (do_io_times_out 3 (λ fd, read_f fd 4096 16) "read" READ SO_RCVTIMEO
           w live_socket
           {| k_ret := -1; k_errno := Some EAGAIN; k_out := None |} []);
    try reflexivity.
  - vm_compute. discriminate.
  - split; reflexivity.
Defined.

(** X3: a blocking call that waits for readiness.  When the real function
    answers [EAGAIN] in [length rounds] rounds, each ended by readiness
    before any timer expires, and then gives a final answer [r], [do_io]
    returns the return value of [r].  Every round arms the timer anew with
    the whole timeout and cancels it on resumption; with no timeout no
    timer is armed at all. *)
Theorem do_io_waits_for_readiness fd fn name ev so w ctx rounds r rest :
  t_hook_enable w = true →
  FdMgr w !! fd = Some ctx →
  isClose ctx = false →
  isSocket ctx = true →
  getUserNonblock ctx = false →
  iom w = true →
  Forall eagain_answer rounds →
  final_answer r →
  script w = eagain_rounds rounds ++ AnsSys r :: rest →
  ∃ w', do_io fd fn name ev so w = Some (k_ret r, w')
        ∧ trace w' = trace w
                     ++ rounds_trace (fn fd) fd ev (getTimeout so ctx)
                          (tinfo_next w) (timer_next w) (length rounds)
                     ++ [ActSys (fn fd)]
        ∧ script w' = rest
        ∧ (∀ k x, timers w' !! k = Some x → timers w !! k = Some x).
Proof.
  intros Hen Hctx Hopen Hsock Hblock Hiom Hrounds Hr Hs.
  rewrite (do_io_blocking fd fn name ev so w ctx Hen Hctx Hopen Hsock Hblock).
  set (w0 := with_tinfos _ _ w).
  destruct (do_io_retry_rounds fd (fn fd) name ev (getTimeout so ctx)
              (tinfo_next w) r rest rounds (length (script w)) w0)
    as (w1 & Hrun & Htrace & Hscript & _ & _);
    [exact Hs | exact Hrounds | exact Hr | exact Hiom
     | subst w0; cbn; apply lookup_insert_eq | |].
  { rewrite Hs, length_app, length_eagain_rounds. lia. }
  rewrite Hrun. eexists. split; [reflexivity|]. cbn.
  repeat split; try assumption.
  apply do_io_retry_keeps in Hrun. destruct Hrun as (_ & _ & _ & _ & Ht & _).
  intros k x Hk. destruct (Ht k x Hk) as [|]; [discriminate | assumption].
Qed.

Lemma do_io_waits_for_readiness_witness :
  let a := {| k_ret := -1; k_errno := Some EAGAIN; k_out := None |} in
  let r := {| k_ret := 7; k_errno := None; k_out := None |} in
  let w := sample_world {[3 := live_socket]}
             (eagain_rounds [a; a] ++ [AnsSys r]) in
  ∃ w', do_io 3 (λ fd, read_f fd 4096 16) "read" READ SO_RCVTIMEO w
        = Some (7, w')
        ∧ trace w' = [ActSys (read_f 3 4096 16);
                      ActAddConditionTimer 0 100 0;
                      ActAddEvent 3 READ; ActYield; ActTimerCancel 0;
                      ActSys (read_f 3 4096 16);
                      ActAddConditionTimer 1 100 0;
                      ActAddEvent 3 READ; ActYield; ActTimerCancel 1;
                      ActSys (read_f 3 4096 16)]
        ∧ script w' = []
        ∧ (∀ k x, timers w' !! k = Some x → timers w !! k = Some x).
Proof.
  intros a r w.
  apply (do_io_waits_for_readiness 3 (λ fd, read_f fd 4096 16) "read" READ
           SO_RCVTIMEO w live_socket [a; a] r []);
    try reflexivity.
  - repeat constructor.
  - left. vm_compute. discriminate.
Defined.

(** ** No residue *)

Lemma leaves_clean_of_keeps w w' : keeps_but None w w' → leaves_clean w w'.
Proof.
  unfold keeps_but, leaves_clean. intros (? & ? & ? & ? & Ht & Hi).
  repeat split; try assumption.
  - intros k x Hk. destruct (Ht k x Hk) as [|]; [discriminate | assumption].
  - intros k. apply Hi.
Qed.

(** An operation that allocates its [timer_info], runs and frees it. *)
Lemma leaves_clean_scoped w w1 :
  keeps_but None
    (with_tinfos (<[tinfo_next w := 0]> (tinfos w)) (S (tinfo_next w)) w) w1 →
  leaves_clean w
    (with_tinfos (delete (tinfo_next w) (tinfos w1)) (tinfo_next w1) w1).
Proof.
  unfold keeps_but, leaves_clean. cbn. intros (? & ? & ? & ? & Ht & Hi).
  repeat split; try assumption.
  - intros k x Hk. destruct (Ht k x Hk) as [|]; [discriminate | assumption].
  - intros k Hk. destruct (decide (k = tinfo_next w)) as [->|Hne].
    + rewrite lookup_delete_eq in Hk. destruct Hk as [? [=]].
    + rewrite lookup_delete_ne in Hk by auto. apply Hi in Hk.
      rewrite lookup_insert_ne in Hk by auto. exact Hk.
Qed.

Lemma do_io_leaves_clean fd fn name ev so w n w' :
  do_io fd fn name ev so w = Some (n, w') → leaves_clean w w'.
Proof.
  unfold do_io, tinfo_new, tinfo_free, answers_left. run_hook.
  destruct (t_hook_enable w); cbn;
    [|intros H; eapply leaves_clean_of_keeps, real_keeps, H].
  destruct (FdMgr w !! fd) as [ctx|];
    [|intros H; eapply leaves_clean_of_keeps, real_keeps, H].
  destruct (isClose ctx).
  { intros [= <- <-]. apply leaves_clean_of_keeps, with_errno_keeps. }
  destruct (negb (isSocket ctx) || getUserNonblock ctx).
  { intros H; eapply leaves_clean_of_keeps, real_keeps, H. }
  destruct (do_io_retry _ _ _ _ _ _ _ _) as [[n1 w1]|] eqn:Hrun;
    [|discriminate].
  intros [= <- <-]. apply leaves_clean_scoped.
  eapply do_io_retry_keeps, Hrun.
Qed.

Lemma connect_so_error_keeps T fd w n w' :
  connect_so_error fd w = Some (n, w') → keeps_but T w w'.
Proof.
  unfold connect_so_error, getsockopt_out. intros H.
  apply bind_Some in H as (s & w1 & Hsys & H).
  apply (sys_keeps T) in Hsys. revert H. run_hook.
  destruct (k_ret s =? -1); [intros [= <- <-]; exact Hsys|].
  destruct (default 0 (k_out s) =? 0); intros [= <- <-]; [exact Hsys|].
  eapply keeps_but_trans; [exact Hsys | apply with_errno_keeps].
Qed.

Lemma connect_wait_keeps fd timeout_ms tinfo w n w' :
  connect_wait fd timeout_ms tinfo w = Some (n, w') → keeps_but None w w'.
Proof.
  unfold connect_wait. run_hook.
  destruct (arm_condition_timer _ _ _ w) as [[timer w1]|] eqn:Harm;
    [|discriminate].
  apply arm_condition_timer_keeps in Harm.
  destruct (addEvent fd WRITE w1) as [[rt w2]|] eqn:Hadd; [|discriminate].
  apply (addEvent_keeps timer) in Hadd.
  assert (H2 : keeps_but timer w w2) by (eapply keeps_but_trans; eauto).
  destruct (rt =? 0).
  - destruct (yield w2) as [[[] w3]|] eqn:Hy; [|discriminate].
    apply (yield_keeps timer) in Hy.
    assert (H3 : keeps_but timer w w3) by (eapply keeps_but_trans; eauto).
    rewrite cancel_if_armed_run.
    destruct (tinfo_cancelled tinfo (disarmed timer w3)) as [[c w4]|] eqn:Hc;
      [|discriminate].
    apply tinfo_cancelled_same in Hc. subst w4.
    apply keeps_but_disarmed in H3.
    destruct (negb (c =? 0)).
    + intros [= <- <-].
      eapply keeps_but_trans; [exact H3 | apply with_errno_keeps].
    + intros H. eapply keeps_but_trans; [exact H3|].
      eapply connect_so_error_keeps, H.
  - rewrite cancel_if_armed_run. intros H.
    apply keeps_but_disarmed in H2.
    eapply keeps_but_trans; [exact H2|].
    eapply keeps_but_trans; [apply emit_keeps|].
    eapply connect_so_error_keeps, H.
Qed.

Lemma connect_with_timeout_leaves_clean fd addr addrlen timeout_ms w n w' :
  connect_with_timeout fd addr addrlen timeout_ms w = Some (n, w') →
  leaves_clean w w'.
Proof.
  unfold connect_with_timeout, tinfo_new, tinfo_free. run_hook.
  destruct (t_hook_enable w); cbn;
    [|intros H; eapply leaves_clean_of_keeps, real_keeps, H].
  destruct (FdMgr w !! fd) as [ctx|];
    [|intros [= <- <-]; apply leaves_clean_of_keeps, with_errno_keeps].
  destruct (isClose ctx).
  { intros [= <- <-]. apply leaves_clean_of_keeps, with_errno_keeps. }
  destruct (negb (isSocket ctx)).
  { intros H; eapply leaves_clean_of_keeps, real_keeps, H. }
  destruct (getUserNonblock ctx).
  { intros H; eapply leaves_clean_of_keeps, real_keeps, H. }
  destruct (real (connect_f fd addr addrlen) w) as [[n1 w1]|] eqn:Hreal;
    [|discriminate].
  apply (real_keeps None) in Hreal.
  destruct (n1 =? 0).
  { intros [= <- <-]. apply leaves_clean_of_keeps, Hreal. }
  destruct (negb (n1 =? -1) || negb (errno w1 =? EINPROGRESS)).
  { intros [= <- <-]. apply leaves_clean_of_keeps, Hreal. }
  destruct (connect_wait _ _ _ _) as [[n2 w2]|] eqn:Hwait; [|discriminate].
  intros [= <- <-]. apply connect_wait_keeps in Hwait.
  destruct Hreal as (HF & He & Hc & Hi & Ht & Hti).
  destruct (leaves_clean_scoped w1 w2 Hwait) as (HF2 & He2 & Hc2 & Hi2 & Ht2 & Hti2).
  unfold leaves_clean. repeat split; try congruence.
  - intros k x Hk. apply Ht2 in Hk.
    destruct (Ht k x Hk) as [|]; [discriminate | assumption].
  - intros k Hk. apply Hti, Hti2, Hk.
Qed.

(** X4: no residue.  Whatever the kernel, the IOManager and the scheduler
    answer, a call of [connect], [read], [readv], [recv], [recvfrom],
    [recvmsg], [write], [writev], [send], [sendto] or [sendmsg] that
    returns leaves the table of descriptors, the hook flag and the connect
    timeout as they were, leaves no timer armed that was not armed before,
    and leaves no [timer_info] alive that was not alive before. *)
Theorem blocking_io_leaves_clean c w n w' :
  blocking_io_call c = true →
  hooked c w = Some (n, w') →
  leaves_clean w w'.
Proof.
  intros Hc.
  destruct c; try discriminate Hc; cbn [hooked];
    unfold connect, read, readv, recv, recvfrom, recvmsg, write, writev,
      send, sendto, sendmsg;
    try apply do_io_leaves_clean.
  unfold mbind, M_bind, get_connect_timeout.
  apply connect_with_timeout_leaves_clean.
Qed.

Lemma blocking_io_leaves_clean_witness :
  let w := sample_world {[3 := live_socket]}
             [answer_err EAGAIN; AnsAddEvent 0; AnsWake [0%nat]] in
  ∃ w', hooked (call_read 3 4096 16) w = Some (-1, w') ∧ leaves_clean w w'.
Proof.
  intros w. eexists. split; [vm_compute; reflexivity|].
  apply (blocking_io_leaves_clean (call_read 3 4096 16) w (-1) _ eq_refl).
  vm_compute. reflexivity.
Defined.



(** ** [connect_with_timeout] *)

Section Connect.
Variables (fd addr addrlen timeout_ms : Z) (w : World) (ctx : FdCtx).
Hypothesis Hen : t_hook_enable w = true.
Hypothesis Hctx : FdMgr w !! fd = Some ctx.
Hypothesis Hopen : isClose ctx = false.

Lemma connect_bypass :
  isSocket ctx = false ∨ getUserNonblock ctx = true →
  connect_with_timeout fd addr addrlen timeout_ms w
  = real (connect_f fd addr addrlen) w.
Proof.
  intros Hby. unfold connect_with_timeout. run_hook. rewrite Hen. cbn.
  rewrite Hctx, Hopen.
  destruct (isSocket ctx); cbn; [|reflexivity].
  destruct Hby as [[=] | ->]. reflexivity.
Qed.

Hypothesis Hsock : isSocket ctx = true.
Hypothesis Hblock : getUserNonblock ctx = false.

Lemma connect_returns_at_once r rest :
  script w = AnsSys r :: rest →
  immediate_answer r →
  connect_with_timeout fd addr addrlen timeout_ms w
  = Some (k_ret r, after_calls (connect_f fd addr addrlen) 0 r rest w).
Proof.
  intros Hs Hr. unfold connect_with_timeout. run_hook. rewrite Hen. cbn.
  rewrite Hctx, Hopen, Hsock, Hblock. cbn.
  rewrite (real_answered _ w r rest Hs).
  destruct (Z.eqb_spec (k_ret r) 0) as [H0 | H0]; [rewrite H0; reflexivity|].
  replace (negb (k_ret r =? -1)
           || negb (errno (after_calls (connect_f fd addr addrlen) 0 r rest w)
                    =? EINPROGRESS)) with true; [reflexivity|].
  symmetry. apply orb_true_iff.
  destruct Hr as [H | (e & He & Hne)].
  - left. apply negb_true_iff, Z.eqb_neq, H.
  - right. unfold after_calls. rewrite He. apply negb_true_iff, Z.eqb_neq, Hne.
Qed.

(** The real [connect] is in progress: the rest is [connect_wait] with a
    [timer_info] of its own. *)
Lemma connect_waits a rest :
  script w = AnsSys a :: rest →
  in_progress_answer a →
  connect_with_timeout fd addr addrlen timeout_ms w
  = match connect_wait fd timeout_ms (tinfo_next w)
            (with_tinfos (<[tinfo_next w := 0]> (tinfos w)) (S (tinfo_next w))
               (with_errno EINPROGRESS
                  (with_script rest
                     (emit (ActSys (connect_f fd addr addrlen)) w)))) with
    | Some (n, w2) =>
        Some (n, with_tinfos (delete (tinfo_next w) (tinfos w2))
                             (tinfo_next w2) w2)
    | None => None
    end.
Proof.
  intros Hs [Hret Herr]. unfold connect_with_timeout, tinfo_new, tinfo_free.
  run_hook. rewrite Hen. cbn. rewrite Hctx, Hopen, Hsock, Hblock. cbn.
  rewrite (real_answered _ w a rest Hs), Hret. unfold after_calls.
  rewrite Herr. cbn.
  destruct (connect_wait _ _ _ _) as [[n w2]|]; reflexivity.
Qed.
End Connect.

(** Once the event is registered, [connect_wait] yields. *)
Lemma connect_wait_registered fd timeout_ms tinfo w rest :
  iom w = true →
  script w = AnsAddEvent 0 :: rest →
  let cb := CbConnectTimeout tinfo fd in
  let timer := (armed timeout_ms cb tinfo w).1 in
  connect_wait fd timeout_ms tinfo w
  = (yield;;
     cancel_if_armed timer;;
     c ← tinfo_cancelled tinfo;
     if negb ((c : Z) =? 0) then set_errno c;; mret (-1)
     else connect_so_error fd)
      (with_script rest
         (emit (ActAddEvent fd WRITE) (armed timeout_ms cb tinfo w).2)).
Proof.
  intros Hiom Hs cb timer.
  pose proof (arm_and_register timeout_ms cb tinfo fd WRITE w 0 rest Hiom Hs)
    as Hreg.
  unfold connect_wait. fold cb.
  unfold mbind, M_bind, mret, M_ret in Hreg |- *.
  destruct (arm_condition_timer timeout_ms cb tinfo w) as [[tm w1]|];
    [|discriminate Hreg].
  destruct (addEvent fd WRITE w1) as [[rt' w2']|]; [|discriminate Hreg].
  injection Hreg as -> -> ->. reflexivity.
Qed.

(** X6: [connect_with_timeout] does not wait when it need not.  On a
    descriptor whose [FdCtx] is not a socket, or whose user asked for
    non-blocking mode, the hook is one call of the real [connect].  On a
    blocking socket, an answer of the real [connect] other than -1 with
    [errno = EINPROGRESS] is returned as it is, after that one call: no
    event, no timer, no yield. *)
Theorem connect_without_waiting fd addr addrlen timeout_ms w ctx :
  t_hook_enable w = true →
  FdMgr w !! fd = Some ctx →
  isClose ctx = false →
  (isSocket ctx = false ∨ getUserNonblock ctx = true →
   connect_with_timeout fd addr addrlen timeout_ms w
   = real (connect_f fd addr addrlen) w)
  ∧ (isSocket ctx = true → getUserNonblock ctx = false →
     ∀ r rest, script w = AnsSys r :: rest → immediate_answer r →
       connect_with_timeout fd addr addrlen timeout_ms w
       = Some (k_ret r, after_calls (connect_f fd addr addrlen) 0 r rest w)).
Proof.
  intros Hen Hctx Hopen. split.
  - apply connect_bypass; assumption.
  - intros Hsock Hblock r rest. apply (connect_returns_at_once _ _ _ _ _ ctx);
      assumption.
Qed.

Lemma connect_without_waiting_witness :
  let r := {| k_ret := 0; k_errno := None; k_out := None |} in
  let w := sample_world {[3 := live_socket]} [AnsSys r] in
  let w_nb := sample_world {[3 := nonblocking_socket]} [answer_err EINPROGRESS] in
  connect_with_timeout 3 0 16 5000 w
  = Some (0, after_calls (connect_f 3 0 16) 0 r [] w)
  ∧ connect_with_timeout 3 0 16 5000 w_nb = real (connect_f 3 0 16) w_nb.
Proof.
  intros r w w_nb. split.
  - apply (proj2 (connect_without_waiting 3 0 16 5000 w live_socket
                    eq_refl eq_refl eq_refl) eq_refl eq_refl r [] eq_refl).
    left. vm_compute. discriminate.
  - apply (proj1 (connect_without_waiting 3 0 16 5000 w_nb nonblocking_socket
                    eq_refl eq_refl eq_refl)).
    right. reflexivity.
Defined.

(** X7: a [connect] that times out.  On a blocking socket, when the real
    [connect] answers [EINPROGRESS] and the timer expires before the socket
    becomes writable, [connect_with_timeout] returns -1 with
    [errno = ETIMEDOUT]; [SO_ERROR] is not read. *)
Theorem connect_times_out fd addr addrlen timeout_ms w ctx a rest :
  t_hook_enable w = true →
  FdMgr w !! fd = Some ctx →
  isClose ctx = false →
  isSocket ctx = true →
  getUserNonblock ctx = false →
  iom w = true →
  timeout_ms ≠ u64_minus_one →
  in_progress_answer a →
  script w = AnsSys a :: AnsAddEvent 0 :: AnsWake [timer_next w] :: rest →
  ∃ w', connect_with_timeout fd addr addrlen timeout_ms w = Some (-1, w')
        ∧ errno w' = ETIMEDOUT
        ∧ trace w' = trace w
                     ++ [ActSys (connect_f fd addr addrlen);
                         ActAddConditionTimer (timer_next w) timeout_ms
                           (tinfo_next w);
                         ActAddEvent fd WRITE; ActYield;
                         ActCancelEvent fd WRITE;
                         ActTimerCancel (timer_next w)]
        ∧ script w' = rest.
Proof.
  intros Hen Hctx Hopen Hsock Hblock Hiom Hto Ha Hs.
  rewrite (connect_waits fd addr addrlen timeout_ms w ctx Hen Hctx Hopen Hsock
             Hblock a _ Hs Ha).
  erewrite connect_wait_registered; [|exact Hiom|reflexivity].
  cbn zeta. apply Z.eqb_neq in Hto. unfold armed. rewrite Hto. cbn [fst snd].
  unfold mbind, M_bind.
  erewrite (yield_timeout _ (timer_next w) rest timeout_ms _ (tinfo_next w)
              fd WRITE);
    [| reflexivity | cbn; apply lookup_insert_eq
     | right; split; reflexivity | cbn; apply lookup_insert_eq].
  rewrite cancel_if_armed_run. unfold tinfo_cancelled. cbn.
  rewrite lookup_insert_eq. cbn.
  eexists. split; [reflexivity|]. cbn. repeat split.
  rewrite <- !app_assoc. reflexivity.
Qed.

Lemma connect_times_out_witness :
  let w := sample_world {[3 := live_socket]}
             [answer_err EINPROGRESS; AnsAddEvent 0; AnsWake [0%nat]] in
  ∃ w', connect_with_timeout 3 0 16 5000 w = Some (-1, w')
        ∧ errno w' = ETIMEDOUT
        ∧ trace w' = [ActSys (connect_f 3 0 16);
                      ActAddConditionTimer 0 5000 0;
                      ActAddEvent 3 WRITE; ActYield;
                      ActCancelEvent 3 WRITE; ActTimerCancel 0]
        ∧ script w' = [].
Proof.
  intros w.
  apply (connect_times_out 3 0 16 5000 w live_socket
           {| k_ret := -1; k_errno := Some EINPROGRESS; k_out := None |} []);
    try reflexivity.
  - vm_compute. discriminate.
  - split; reflexivity.
Defined.

(** X8: a [connect] that completes.  On a blocking socket, when the real
    [connect] answers [EINPROGRESS] and the socket becomes writable before
    any timer expires, the timer is cancelled and [SO_ERROR] decides: the
    result is 0 when the option reads 0, and -1 otherwise, with [errno] set
    to the value read when [getsockopt] has succeeded. *)
Theorem connect_completes fd addr addrlen timeout_ms w ctx a s rest :
  t_hook_enable w = true →
  FdMgr w !! fd = Some ctx →
  isClose ctx = false →
  isSocket ctx = true →
  getUserNonblock ctx = false →
  iom w = true →
  in_progress_answer a →
  script w = AnsSys a :: AnsAddEvent 0 :: AnsWake [] :: AnsSys s :: rest →
  ∃ w', connect_with_timeout fd addr addrlen timeout_ms w
        = Some (so_error_result s, w')
        ∧ (k_ret s ≠ -1 → default 0 (k_out s) ≠ 0 →
           errno w' = default 0 (k_out s))
        ∧ trace w' = trace w
                     ++ (if timeout_ms =? u64_minus_one
                         then [ActSys (connect_f fd addr addrlen);
                               ActAddEvent fd WRITE; ActYield]
                         else [ActSys (connect_f fd addr addrlen);
                               ActAddConditionTimer (timer_next w) timeout_ms
                                 (tinfo_next w);
                               ActAddEvent fd WRITE; ActYield;
                               ActTimerCancel (timer_next w)])
                     ++ [ActSys (getsockopt_f fd SOL_SOCKET SO_ERROR 0 0)]
        ∧ script w' = rest.
Proof.
  intros Hen Hctx Hopen Hsock Hblock Hiom Ha Hs.
  rewrite (connect_waits fd addr addrlen timeout_ms w ctx Hen Hctx Hopen Hsock
             Hblock a _ Hs Ha).
  erewrite connect_wait_registered; [|exact Hiom|reflexivity].
  cbn zeta. unfold mbind, M_bind.
  erewrite yield_readiness
    by (unfold armed; destruct (timeout_ms =? u64_minus_one); reflexivity).
  rewrite cancel_if_armed_run. unfold tinfo_cancelled.
  match goal with |- context [tinfos ?w3 !! tinfo_next w] =>
    replace (tinfos w3 !! tinfo_next w) with (Some 0)
  end.
  2:{ unfold armed. destruct (timeout_ms =? u64_minus_one); cbn;
        rewrite lookup_insert_eq; reflexivity. }
  cbn [Z.eqb negb].
  unfold connect_so_error, getsockopt_out, sys, so_error_result. run_hook.
  replace (script _) with (AnsSys s :: rest).
  2:{ unfold armed. destruct (timeout_ms =? u64_minus_one); reflexivity. }
  destruct (Z.eqb_spec (k_ret s) (-1)) as [Hs1 | Hs1].
  - eexists. split; [reflexivity|]. split; [intros H; contradiction|].
    unfold armed.
    destruct (timeout_ms =? u64_minus_one), (k_errno s); cbn;
      rewrite <- ?app_assoc; auto.
  - destruct (Z.eqb_spec (default 0 (k_out s)) 0) as [Hs0 | Hs0].
    + eexists. split; [reflexivity|]. split; [intros _ H; contradiction|].
      unfold armed.
      destruct (timeout_ms =? u64_minus_one), (k_errno s); cbn;
        rewrite <- ?app_assoc; auto.
    + eexists. split; [reflexivity|]. split; [intros _ _; reflexivity|].
      unfold armed.
      destruct (timeout_ms =? u64_minus_one), (k_errno s); cbn;
        rewrite <- ?app_assoc; auto.
Qed.

Lemma connect_completes_witness :
  let s := {| k_ret := 0; k_errno := None; k_out := Some 111 |} in
  let w := sample_world {[3 := live_socket]}
             [answer_err EINPROGRESS; AnsAddEvent 0; AnsWake []; AnsSys s] in
  ∃ w', connect_with_timeout 3 0 16 5000 w = Some (-1, w')
        ∧ errno w' = 111
        ∧ trace w' = [ActSys (connect_f 3 0 16);
                      ActAddConditionTimer 0 5000 0;
                      ActAddEvent 3 WRITE; ActYield; ActTimerCancel 0;
                      ActSys (getsockopt_f 3 SOL_SOCKET SO_ERROR 0 0)]
        ∧ script w' = [].
Proof.
  intros s w.
  destruct (connect_completes 3 0 16 5000 w live_socket
              {| k_ret := -1; k_errno := Some EINPROGRESS; k_out := None |}
              s [] eq_refl eq_refl
              eq_refl eq_refl eq_refl eq_refl (conj eq_refl eq_refl) eq_refl)
    as (w' & Hrun & Herrno & Htrace & Hscript).
  exists w'. split; [exact Hrun|]. split; [|split; assumption].
  apply Herrno; vm_compute; discriminate.
Defined.

(** ** The sleep shims *)

(** The common end of the three shims: the timer is armed, the fiber
    yields, the timer expires and schedules the fiber again. *)
Lemma sleep_until_timer ms w rest :
  iom w = true →
  script w = AnsWake [timer_next w] :: rest →
  ∃ w', (addTimer ms CbSchedule;; yield;; mret 0) w = Some (0, w')
        ∧ trace w' = trace w
                     ++ [ActAddTimer (timer_next w) ms; ActYield; ActSchedule]
        ∧ script w' = rest
        ∧ timers w' !! timer_next w = None
        ∧ FdMgr w' = FdMgr w
        ∧ errno w' = errno w.
Proof.
  intros Hiom Hs. unfold addTimer, through_iom, yield. run_hook.
  rewrite Hiom. cbn. rewrite Hs. cbn.
  unfold mbind, M_bind, Timer_expire. cbn. rewrite lookup_insert_eq. cbn.
  eexists. split; [reflexivity|]. cbn. repeat split.
  - rewrite <- !app_assoc. reflexivity.
  - apply lookup_delete_eq.
Qed.

(** X9: the sleep shims.  On a hook-enabled thread [sleep], [usleep] and
    [nanosleep] never call the real function: each arms one timer, yields,
    and returns 0 once the timer has scheduled the fiber again; [errno] is
    untouched.  The delay is [seconds * 1000] reduced modulo [2^32],
    [usec / 1000], and [tv_sec * 1000 + tv_nsec / 1000000] reduced to an
    [int]; it is exact in milliseconds when that fits. *)
Theorem sleep_shims_wait w rest :
  t_hook_enable w = true →
  iom w = true →
  script w = AnsWake [timer_next w] :: rest →
  let slept ms r :=
    ∃ w', r = Some (0, w')
          ∧ trace w' = trace w
                       ++ [ActAddTimer (timer_next w) ms; ActYield; ActSchedule]
          ∧ script w' = rest
          ∧ timers w' !! timer_next w = None
          ∧ FdMgr w' = FdMgr w
          ∧ errno w' = errno w in
  (∀ seconds, slept (to_u32 (seconds * 1000)) (sleep seconds w))
  ∧ (∀ usec, slept (usec ÷ 1000) (usleep usec w))
  ∧ (∀ req rem,
       slept (to_u64 (to_i32 (req_tv_sec req * 1000
                              + req_tv_nsec req ÷ 1000 ÷ 1000)))
             (nanosleep req rem w))
  ∧ (∀ seconds, 0 ≤ seconds * 1000 < 2 ^ 32 →
       to_u32 (seconds * 1000) = seconds * 1000)
  ∧ (∀ req, 0 ≤ req_tv_sec req → 0 ≤ req_tv_nsec req →
       req_tv_sec req * 1000 + req_tv_nsec req / 1000000 < 2 ^ 31 →
       to_u64 (to_i32 (req_tv_sec req * 1000 + req_tv_nsec req ÷ 1000 ÷ 1000))
       = req_tv_sec req * 1000 + req_tv_nsec req / 1000000).
Proof.
  intros Hen Hiom Hs slept.
  split; [|split; [|split; [|split]]].
  - intros seconds. unfold slept, sleep.
    unfold mbind at 1. unfold M_bind at 1. unfold get_hook_enable.
    rewrite Hen. cbn [negb].
    apply (sleep_until_timer _ w rest Hiom Hs).
  - intros usec. unfold slept, usleep.
    unfold mbind at 1. unfold M_bind at 1. unfold get_hook_enable.
    rewrite Hen. cbn [negb].
    apply (sleep_until_timer _ w rest Hiom Hs).
  - intros req rem. unfold slept, nanosleep.
    unfold mbind at 1. unfold M_bind at 1. unfold get_hook_enable.
    rewrite Hen. cbn [negb].
    apply (sleep_until_timer _ w rest Hiom Hs).
  - intros seconds H. unfold to_u32. apply Z.mod_small. exact H.
  - intros req Hsec Hnsec Hlt.
    assert (Hq : req_tv_nsec req ÷ 1000 ÷ 1000 = req_tv_nsec req / 1000000).
    { rewrite (Z.quot_div_nonneg (req_tv_nsec req) 1000) by lia.
      rewrite Z.quot_div_nonneg by (try apply Z.div_pos; lia).
      rewrite Zdiv.Zdiv_Zdiv by lia. reflexivity. }
    rewrite Hq.
    assert (0 ≤ req_tv_nsec req / 1000000) by (apply Z.div_pos; lia).
    unfold to_u64, to_i32.
    rewrite (Z.mod_small (_ + 2 ^ 31)) by lia.
    rewrite Z.mod_small by lia. lia.
Qed.

Lemma sleep_shims_wait_witness :
  let w := sample_world ∅ [AnsWake [0%nat]] in
  (∃ w', sleep 2 w = Some (0, w')
         ∧ trace w' = [ActAddTimer 0 2000; ActYield; ActSchedule])
  ∧ (∃ w', usleep 1500 w = Some (0, w')
           ∧ trace w' = [ActAddTimer 0 1; ActYield; ActSchedule])
  ∧ (∃ w', nanosleep {| req_tv_sec := 1; req_tv_nsec := 2000000 |} 0 w
           = Some (0, w')
           ∧ trace w' = [ActAddTimer 0 1002; ActYield; ActSchedule]).
Proof.
  intros w.
  destruct (sleep_shims_wait w [] eq_refl eq_refl eq_refl)
    as (Hsleep & Husleep & Hnano & _).
  split; [|split].
  - destruct (Hsleep 2) as (w' & Hrun & Htrace & _). exists w'.
    split; assumption.
  - destruct (Husleep 1500) as (w' & Hrun & Htrace & _). exists w'.
    split; assumption.
  - destruct (Hnano {| req_tv_sec := 1; req_tv_nsec := 2000000 |} 0)
      as (w' & Hrun & Htrace & _).
    exists w'. split; assumption.
Defined.

(** ** [close] *)

(** X10: [close].  On a hook-enabled thread [close(fd)] drops the [FdCtx] of
    [fd] and of no other descriptor, after cancelling the events of [fd]
    when the descriptor is tracked and the thread has an IOManager; then it
    calls the real [close] and returns its result.  The [FdCtx] is dropped
    also when the real [close] fails. *)
Theorem close_drops_only_fd fd w r rest :
  t_hook_enable w = true →
  script w = AnsSys r :: rest →
  ∃ w', close fd w = Some (k_ret r, w')
        ∧ FdMgr w' = delete fd (FdMgr w)
        ∧ trace w' = trace w
                     ++ match FdMgr w !! fd with
                        | Some _ => if iom w then [ActCancelAll fd] else []
                        | None => []
                        end
                     ++ [ActSys (close_f fd)]
        ∧ script w' = rest
        ∧ timers w' = timers w.
Proof.
  intros Hen Hs. unfold close, real, sys. run_hook. rewrite Hen. cbn.
  destruct (FdMgr w !! fd) as [ctx|] eqn:Hctx; cbn.
  - destruct (iom w); cbn; rewrite Hs; eexists; (split; [reflexivity|]);
      destruct (k_errno r); cbn; rewrite <- ?app_assoc; auto.
  - rewrite Hs. eexists. split; [reflexivity|].
    assert (Hdel : delete fd (FdMgr w) = FdMgr w).
    { apply map_eq. intros k. destruct (decide (k = fd)) as [->|Hne].
      - rewrite lookup_delete_eq. auto.
      - rewrite lookup_delete_ne by auto. reflexivity. }
    rewrite Hdel. destruct (k_errno r); cbn; auto.
Qed.

Lemma close_drops_only_fd_witness :
  let w := sample_world {[3 := live_socket; 4 := plain_file]} [answer_err EBADF] in
  ∃ w', close 3 w = Some (-1, w')
        ∧ FdMgr w' = delete 3 (FdMgr w)
        ∧ trace w' = [ActCancelAll 3; ActSys (close_f 3)]
        ∧ script w' = []
        ∧ timers w' = timers w.
Proof.
  intros w.
  exact (close_drops_only_fd 3 w
           {| k_ret := -1; k_errno := Some EBADF; k_out := None |} []
           eq_refl eq_refl).
Defined.

(** ** [fcntl], [ioctl] and [setsockopt] where they only pass through *)










(** ** The two views of [O_NONBLOCK] *)



Section ManagedSocket.
Variables (fd : Z) (w : World) (ctx : FdCtx).
Hypothesis Hctx : FdMgr w !! fd = Some ctx.
Hypothesis Hopen : isClose ctx = false.
Hypothesis Hsock : isSocket ctx = true.

Lemma fcntl_setfl_managed arg :
  fcntl fd F_SETFL arg w
  = real (fcntl_f fd F_SETFL
            (Some (if getSysNonblock ctx then Z.lor arg O_NONBLOCK
                   else Z.land arg (Z.lnot O_NONBLOCK))))
      (with_FdMgr (<[fd := setUserNonblock (negb (Z.land arg O_NONBLOCK =? 0))
                             ctx]> (FdMgr w)) w).
Proof.
  unfold fcntl. run_hook. rewrite Hctx. cbn. rewrite Hopen, Hsock. cbn.
  rewrite (alter_lookup_insert _ _ _ _ Hctx). reflexivity.
Qed.

Lemma fcntl_getfl_managed va r rest :
  script w = AnsSys r :: rest →
  fcntl fd F_GETFL va w
  = Some (if getUserNonblock ctx then Z.lor (k_ret r) O_NONBLOCK
          else Z.land (k_ret r) (Z.lnot O_NONBLOCK),
          after_calls (fcntl_f fd F_GETFL None) 0 r rest w).
Proof.
  intros Hs. unfold fcntl. run_hook.
  rewrite (real_answered _ w r rest Hs).
  replace (FdMgr (after_calls (fcntl_f fd F_GETFL None) 0 r rest w) !! fd)
    with (Some ctx)
    by (unfold after_calls; destruct (k_errno r); cbn; congruence).
  rewrite Hopen, Hsock. cbn. destruct (getUserNonblock ctx); reflexivity.
Qed.

Lemma ioctl_fionbio_managed arg :
  ioctl fd FIONBIO arg w
  = real (ioctl_f fd FIONBIO arg)
      (with_FdMgr (<[fd := setUserNonblock (negb (arg =? 0)) ctx]> (FdMgr w))
         w).
Proof.
  unfold ioctl. run_hook. rewrite Hctx. cbn. rewrite Hopen, Hsock. cbn.
  rewrite (alter_lookup_insert _ _ _ _ Hctx). reflexivity.
Qed.
End ManagedSocket.



(** X14: [FIONBIO] and [F_GETFL] agree.  On a live socket that the hooks
    manage, after [ioctl(fd, FIONBIO, &v)] the flags that [F_GETFL]
    returns have [O_NONBLOCK] set if [v] is non-zero and clear if it is
    zero, whatever the kernel answers to the two calls. *)
Theorem ioctl_fionbio_then_getfl fd arg va ctx w r1 r2 rest :
  FdMgr w !! fd = Some ctx →
  isClose ctx = false →
  isSocket ctx = true →
  script w = AnsSys r1 :: AnsSys r2 :: rest →
  ∃ w', (ioctl fd FIONBIO arg;; fcntl fd F_GETFL va) w
        = Some (if arg =? 0 then Z.land (k_ret r2) (Z.lnot O_NONBLOCK)
                else Z.lor (k_ret r2) O_NONBLOCK, w')
        ∧ script w' = rest.
Proof.
  intros Hctx Hopen Hsock Hs. unfold mbind, M_bind.
  rewrite (ioctl_fionbio_managed fd w ctx Hctx Hopen Hsock arg).
  erewrite real_answered by exact Hs.
  erewrite (fcntl_getfl_managed fd _
              (setUserNonblock (negb (arg =? 0)) ctx) _ Hopen Hsock va r2 rest).
  - cbn. destruct (arg =? 0); (eexists; split; [reflexivity|]);
      unfold after_calls; destruct (k_errno r2); reflexivity.
  - unfold after_calls. destruct (k_errno r1); reflexivity.
  Unshelve.
  unfold after_calls. destruct (k_errno r1); cbn; apply lookup_insert_eq.
Qed.

Lemma ioctl_fionbio_then_getfl_witness :
  let w := sample_world {[3 := live_socket]} [answer_ok 0; answer_ok 2] in
  ∃ w', (ioctl 3 FIONBIO 1;; fcntl 3 F_GETFL 0) w
        = Some (Z.lor 2 O_NONBLOCK, w')
        ∧ script w' = [].
Proof.
  intros w.
  exact (ioctl_fionbio_then_getfl 3 1 0 live_socket w
           {| k_ret := 0; k_errno := None; k_out := None |}
           {| k_ret := 2; k_errno := None; k_out := None |} [] eq_refl eq_refl
           eq_refl eq_refl).
Defined.

(** X15: the user's non-blocking mode is honoured.  On a hook-enabled
    thread, once the user has set [O_NONBLOCK] with [F_SETFL], or switched
    [FIONBIO] on, a call that goes through [do_io] on that socket is one
    call of the real function whose answer, [EAGAIN] included, goes back to
    the caller: the fiber does not yield. *)
Theorem user_nonblock_bypasses_do_io fd fn name ev so flags arg ctx w r1 r2
    rest :
  t_hook_enable w = true →
  FdMgr w !! fd = Some ctx →
  isClose ctx = false →
  isSocket ctx = true →
  arg ≠ 0 →
  script w = AnsSys r1 :: AnsSys r2 :: rest →
  (∃ karg,
     (fcntl fd F_SETFL (Z.lor flags O_NONBLOCK);; do_io fd fn name ev so) w
     = Some (k_ret r2,
             after_calls (fn fd) 0 r2 rest
               (after_calls (fcntl_f fd F_SETFL (Some karg)) 0 r1
                  (AnsSys r2 :: rest)
                  (with_FdMgr (<[fd := setUserNonblock true ctx]> (FdMgr w))
                     w))))
  ∧ (ioctl fd FIONBIO arg;; do_io fd fn name ev so) w
    = Some (k_ret r2,
            after_calls (fn fd) 0 r2 rest
              (after_calls (ioctl_f fd FIONBIO arg) 0 r1 (AnsSys r2 :: rest)
                 (with_FdMgr (<[fd := setUserNonblock true ctx]> (FdMgr w))
                    w))).
Proof.
  intros Hen Hctx Hopen Hsock Harg Hs.
  assert (Hio : ∀ c,
    do_io fd fn name ev so
      (after_calls c 0 r1 (AnsSys r2 :: rest)
         (with_FdMgr (<[fd := setUserNonblock true ctx]> (FdMgr w)) w))
    = Some (k_ret r2,
            after_calls (fn fd) 0 r2 rest
              (after_calls c 0 r1 (AnsSys r2 :: rest)
                 (with_FdMgr (<[fd := setUserNonblock true ctx]> (FdMgr w))
                    w)))).
  { intros c.
    rewrite (do_io_bypass fd _) with (ctx := setUserNonblock true ctx).
    - apply real_answered. unfold after_calls.
      destruct (k_errno r1); reflexivity.
    - unfold after_calls. destruct (k_errno r1); exact Hen.
    - unfold after_calls. destruct (k_errno r1); cbn; apply lookup_insert_eq.
    - exact Hopen.
    - right. reflexivity. }
  split.
  - eexists. unfold mbind, M_bind.
    rewrite (fcntl_setfl_managed fd w ctx Hctx Hopen Hsock).
    rewrite land_lor_same. cbn [Z.eqb O_NONBLOCK negb].
    erewrite real_answered by exact Hs. apply Hio.
  - unfold mbind, M_bind.
    rewrite (ioctl_fionbio_managed fd w ctx Hctx Hopen Hsock).
    apply Z.eqb_neq in Harg. rewrite Harg. cbn [negb].
    erewrite real_answered by exact Hs. apply Hio.
Qed.

Lemma user_nonblock_bypasses_do_io_witness :
  let r1 := {| k_ret := 0; k_errno := None; k_out := None |} in
  let r2 := {| k_ret := -1; k_errno := Some EAGAIN; k_out := None |} in
  let w := sample_world {[3 := live_socket]} [AnsSys r1; AnsSys r2] in
  ∃ w', (ioctl 3 FIONBIO 1;;
         do_io 3 (λ fd, read_f fd 4096 16) "read" READ SO_RCVTIMEO) w
        = Some (-1, w')
        ∧ errno w' = EAGAIN
        ∧ trace w' = [ActSys (ioctl_f 3 FIONBIO 1); ActSys (read_f 3 4096 16)].
Proof.
  intros r1 r2 w.
  assert (Harg : 1 ≠ 0) by discriminate.
  destruct (user_nonblock_bypasses_do_io 3 (λ fd, read_f fd 4096 16) "read"
              READ SO_RCVTIMEO 0 1 live_socket w r1 r2 [] eq_refl eq_refl
              eq_refl eq_refl Harg eq_refl) as (_ & Hrun).
  eexists. split; [exact Hrun|]. split; reflexivity.
Defined.

(** X16: the timeout that [setsockopt] caches is the one [do_io] uses.  On a
    hook-enabled thread, after [setsockopt] with [SO_RCVTIMEO] or
    [SO_SNDTIMEO] on a live blocking socket, whatever the real [setsockopt]
    answers, a call through [do_io] for that option which meets [EAGAIN]
    arms its timer with the milliseconds of the timeval, and returns -1
    with [errno = ETIMEDOUT] when that timer expires.  A timeval below one
    millisecond, zero included, gives a timer of 0 ms, not an unbounded
    wait. *)
Theorem setsockopt_timeout_bounds_do_io fd fn name ev optname tv optlen ctx w
    s a rest :
  t_hook_enable w = true →
  FdMgr w !! fd = Some ctx →
  isClose ctx = false →
  isSocket ctx = true →
  getUserNonblock ctx = false →
  iom w = true →
  optname = SO_RCVTIMEO ∨ optname = SO_SNDTIMEO →
  timeval_ms tv ≠ u64_minus_one →
  eagain_answer a →
  script w = AnsSys s :: AnsSys a :: AnsAddEvent 0
             :: AnsWake [timer_next w] :: rest →
  (∃ w', (setsockopt fd SOL_SOCKET optname tv optlen;;
          do_io fd fn name ev optname) w = Some (-1, w')
         ∧ errno w' = ETIMEDOUT
         ∧ trace w' = trace w
                      ++ [ActSys (setsockopt_f fd SOL_SOCKET optname tv optlen);
                          ActSys (fn fd);
                          ActAddConditionTimer (timer_next w) (timeval_ms tv)
                            (tinfo_next w);
                          ActAddEvent fd ev; ActYield;
                          ActCancelEvent fd ev;
                          ActTimerCancel (timer_next w)]
         ∧ script w' = rest)
  ∧ (tv_sec tv = 0 → 0 ≤ tv_usec tv < 1000 → timeval_ms tv = 0).
Proof.
  intros Hen Hctx Hopen Hsock Hblock Hiom Hopt Hms Ha Hs. split.
  - set (ctx' := setTimeout optname (timeval_ms tv) ctx).
    set (w0 := with_FdMgr (<[fd := ctx']> (FdMgr w)) w).
    assert (Hset : setsockopt fd SOL_SOCKET optname tv optlen w
                   = real (setsockopt_f fd SOL_SOCKET optname tv optlen) w0).
    { unfold setsockopt. run_hook. rewrite Hen. cbn.
      replace ((optname =? SO_RCVTIMEO) || (optname =? SO_SNDTIMEO))
        with true by (destruct Hopt as [-> | ->]; reflexivity).
      rewrite Hctx. cbn. rewrite (alter_lookup_insert _ _ _ _ Hctx).
      reflexivity. }
    assert (Hto : getTimeout optname ctx' = timeval_ms tv).
    { subst ctx'. unfold getTimeout, setTimeout. cbn.
      destruct Hopt as [-> | ->]; reflexivity. }
    unfold mbind, M_bind. rewrite Hset.
    erewrite real_answered by exact Hs.
    set (w1 := after_calls _ 0 s _ w0).
    assert (Hw1 : t_hook_enable w1 = true ∧ FdMgr w1 !! fd = Some ctx'
                  ∧ iom w1 = true ∧ timer_next w1 = timer_next w
                  ∧ tinfo_next w1 = tinfo_next w
                  ∧ script w1 = AnsSys a :: AnsAddEvent 0
                                :: AnsWake [timer_next w] :: rest
                  ∧ trace w1 = trace w
                      ++ [ActSys (setsockopt_f fd SOL_SOCKET optname tv optlen)]).
    { subst w1 w0. unfold after_calls. destruct (k_errno s); cbn;
        rewrite lookup_insert_eq; auto 10. }
    destruct Hw1 as (Hen1 & Hctx1 & Hiom1 & Htn & Htin & Hs1 & Htr1).
    rewrite (do_io_blocking fd fn name ev optname w1 ctx' Hen1 Hctx1 Hopen
               Hsock Hblock).
    rewrite Hto.
    destruct (do_io_retry_times_out fd (fn fd) name ev (timeval_ms tv)
                (tinfo_next w1) (length (script w1))
                (with_tinfos (<[tinfo_next w1 := 0]> (tinfos w1))
                   (S (tinfo_next w1)) w1) a rest)
      as (w2 & Hrun & Herrno & Htrace & Hscript & _);
      [cbn; rewrite Hs1, Htn; reflexivity | exact Ha | exact Hiom1 | exact Hms
       | cbn; apply lookup_insert_eq |].
    rewrite Hrun. eexists. split; [reflexivity|]. cbn.
    split; [exact Herrno|]. split; [|exact Hscript].
    rewrite Htrace. cbn. rewrite Htr1, Htn, Htin, <- app_assoc. reflexivity.
  - intros Hsec Husec. unfold timeval_ms, to_u64. rewrite Hsec.
    rewrite Z.quot_small by lia. reflexivity.
Qed.

Lemma setsockopt_timeout_bounds_do_io_witness :
  let tv := {| tv_sec := 0; tv_usec := 999 |} in
  let w := sample_world {[3 := live_socket]}
             [answer_ok 0; answer_err EAGAIN; AnsAddEvent 0; AnsWake [0%nat]] in
  (∃ w', (setsockopt 3 SOL_SOCKET SO_SNDTIMEO tv 16;;
          do_io 3 (λ fd, write_f fd 4096 16) "write" WRITE SO_SNDTIMEO) w
         = Some (-1, w')
         ∧ errno w' = ETIMEDOUT
         ∧ trace w' = [ActSys (setsockopt_f 3 SOL_SOCKET SO_SNDTIMEO tv 16);
                       ActSys (write_f 3 4096 16);
                       ActAddConditionTimer 0 0 0;
                       ActAddEvent 3 WRITE; ActYield;
                       ActCancelEvent 3 WRITE; ActTimerCancel 0]
         ∧ script w' = [])
  ∧ timeval_ms tv = 0.
Proof.
  intros tv w.
  assert (Hms : timeval_ms tv ≠ u64_minus_one) by (vm_compute; discriminate).
  destruct (setsockopt_timeout_bounds_do_io 3 (λ fd, write_f fd 4096 16)
              "write" WRITE SO_SNDTIMEO tv 16 live_socket w
              {| k_ret := 0; k_errno := None; k_out := None |}
              {| k_ret := -1; k_errno := Some EAGAIN; k_out := None |} [] eq_refl
              eq_refl eq_refl eq_refl eq_refl eq_refl (or_intror eq_refl) Hms
              (conj eq_refl eq_refl) eq_refl) as (Hrun & Hzero).
  split; [exact Hrun|]. apply Hzero; cbn; [reflexivity | lia].
Defined.

(** ** Descriptors that are not created *)

(** X17: a failed [socket] or [accept] installs nothing.  When the real
    [socket] returns -1 the hook returns -1 after that one call, and when
    the call behind [accept] yields a negative descriptor [accept] returns
    it; in both cases the table of descriptors is as the call found
    it. *)
Theorem failed_creation_installs_nothing w :
  (∀ domain type protocol r rest,
     script w = AnsSys r :: rest → k_ret r = -1 →
     socket domain type protocol w
     = Some (-1, after_calls (socket_f domain type protocol) 0 r rest w))
  ∧ (∀ s addr addrlen n w1,
       do_io s (λ s, accept_f s addr addrlen) "accept" READ SO_RCVTIMEO w
       = Some (n, w1) →
       to_i32 n < 0 →
       accept s addr addrlen w = Some (to_i32 n, w1)
       ∧ FdMgr w1 = FdMgr w).
Proof.
  split.
  - intros domain type protocol r rest Hs Hret.
    unfold socket, mbind, M_bind, get_hook_enable.
    destruct (t_hook_enable w); cbv beta iota; cbn [negb];
      rewrite (real_answered _ w r rest Hs), Hret; reflexivity.
  - intros s addr addrlen n w1 Hio Hneg. split.
    + unfold accept. unfold mbind at 1. unfold M_bind at 1. rewrite Hio.
      apply Z.leb_gt in Hneg. rewrite Hneg. reflexivity.
    + apply do_io_leaves_clean in Hio. apply Hio.
Qed.

Lemma failed_creation_installs_nothing_witness :
  let r := {| k_ret := -1; k_errno := Some 24; k_out := None |} in
  let w := sample_world {[3 := live_socket]} [AnsSys r] in
  socket 2 1 0 w = Some (-1, after_calls (socket_f 2 1 0) 0 r [] w)
  ∧ ∃ w1, accept 3 0 0 w = Some (-1, w1) ∧ FdMgr w1 = FdMgr w.
Proof.
  intros r w.
  destruct (failed_creation_installs_nothing w) as (Hsocket & Haccept).
  split.
  - exact (Hsocket 2 1 0 r [] eq_refl eq_refl).
  - eexists. apply (Haccept 3 0 0 (-1)); vm_compute; reflexivity.
Defined.

(** ** The timeout lambdas, twice *)

(** X18: the timeout fires once.  Running a timeout lambda a second time
    changes nothing: [cancelled] is set and [cancelEvent] is called at most
    once for a [timer_info], however often the callback runs. *)
Theorem timeout_cb_fires_once winfo fd event w :
  (do_io_timeout_cb winfo fd event;; do_io_timeout_cb winfo fd event) w
  = do_io_timeout_cb winfo fd event w
  ∧ (connect_timeout_cb winfo fd;; connect_timeout_cb winfo fd) w
    = connect_timeout_cb winfo fd w.
Proof.
  unfold do_io_timeout_cb, connect_timeout_cb. run_hook.
  destruct (tinfos w !! winfo) as [c|] eqn:Hw; cbn.
  - destruct (Z.eqb_spec c 0) as [-> | Hc]; cbn.
    + rewrite lookup_alter. case_decide; [|contradiction].
      rewrite Hw. cbn. split; reflexivity.
    + rewrite Hw. cbn. apply Z.eqb_neq in Hc. rewrite Hc. split; reflexivity.
  - rewrite Hw. split; reflexivity.
Qed.

(** ** What a hook may touch *)

Lemma frame_refl D w : frame D w w.
Proof. unfold frame. auto. Qed.

Lemma frame_trans D w1 w2 w3 : frame D w1 w2 → frame D w2 w3 → frame D w1 w3.
Proof.
  unfold frame. intros (? & ? & ? & Hfd1) (? & ? & ? & Hfd2).
  repeat split; try congruence.
  intros fd Hfd. rewrite (Hfd2 fd Hfd). apply Hfd1, Hfd.
Qed.

Lemma frame_weaken (D D' : Z → Prop) w w' :
  (∀ fd, D fd → D' fd) → frame D w w' → frame D' w w'.
Proof.
  unfold frame. intros HD (? & ? & ? & Hfd1). repeat split; try assumption.
  intros fd Hfd. apply Hfd1. intros HDfd. apply Hfd, HD, HDfd.
Qed.

Lemma frame_of_keeps D T w w' : keeps_but T w w' → frame D w w'.
Proof.
  unfold keeps_but, frame. intros (HF & ? & ? & ? & _).
  repeat split; try assumption. intros fd _. rewrite HF. reflexivity.
Qed.

Lemma frame_of_clean D w w' : leaves_clean w w' → frame D w w'.
Proof.
  unfold leaves_clean, frame. intros (HF & ? & ? & ? & _).
  repeat split; try assumption. intros fd _. rewrite HF. reflexivity.
Qed.

Lemma frame_FdMgr (D : Z → Prop) w m :
  (∀ fd, ¬ D fd → m !! fd = FdMgr w !! fd) → frame D w (with_FdMgr m w).
Proof. intros H. unfold frame. cbn. auto. Qed.

Lemma FdCtx_update_frame fd f w : frame (eq fd) w (with_FdMgr (alter f fd (FdMgr w)) w).
Proof. apply frame_FdMgr. intros fd' Hne. apply lookup_alter_ne, Hne. Qed.

Lemma FdMgr_del_frame fd w : frame (eq fd) w (with_FdMgr (delete fd (FdMgr w)) w).
Proof. apply frame_FdMgr. intros fd' Hne. apply lookup_delete_ne, Hne. Qed.

Lemma FdCtx_init_frame D fd w c w' :
  FdCtx_init fd w = Some (c, w') → frame D w w'.
Proof.
  unfold FdCtx_init. intros H.
  apply bind_Some in H as (st & w1 & Hst & H).
  apply (sys_keeps None), (frame_of_keeps D) in Hst.
  apply bind_Some in H as ([] & w2 & H & [= <- <-]).
  eapply frame_trans; [exact Hst|].
  destruct (negb (k_ret st =? -1) && negb (default 0 (k_out st) =? 0)).
  - apply bind_Some in H as (flags & w3 & Hg & H).
    apply bind_Some in H as (x & w4 & Hset & [= <-]).
    eapply frame_trans; eapply frame_of_keeps, (real_keeps None); eassumption.
  - injection H as <-. apply frame_refl.
Qed.

Lemma FdMgr_get_create_frame fd w c w' :
  FdMgr_get_create fd w = Some (c, w') → frame (eq fd) w w'.
Proof.
  unfold FdMgr_get_create, FdMgr_get. unfold mbind at 1. unfold M_bind at 1.
  destruct (FdMgr w !! fd).
  - intros [= <- <-]. apply frame_refl.
  - intros H. apply bind_Some in H as (c' & w1 & Hinit & H).
    apply (FdCtx_init_frame (eq fd)) in Hinit.
    injection H as <- <-.
    eapply frame_trans; [exact Hinit|].
    apply frame_FdMgr. intros fd' Hne. apply lookup_insert_ne, Hne.
Qed.

Lemma sleep_body_frame D ms w n w' :
  (addTimer ms CbSchedule;; yield;; mret 0) w = Some (n, w') → frame D w w'.
Proof.
  intros H. apply bind_Some in H as (t & w1 & Hadd & H).
  apply bind_Some in H as ([] & w2 & Hy & [= <- <-]).
  apply (yield_keeps None), (frame_of_keeps D) in Hy.
  eapply frame_trans; [|exact Hy].
  revert Hadd. unfold addTimer, through_iom, IOManager_GetThis. run_hook.
  destruct (iom w); [|discriminate].
  intros [= <- <-]. unfold frame. cbn. auto.
Qed.

Lemma close_frame fd w n w' : close fd w = Some (n, w') → frame (eq fd) w w'.
Proof.
  unfold close, FdMgr_get, IOManager_GetThis, cancelAll, FdMgr_del, do_emit.
  run_hook. destruct (t_hook_enable w); cbn;
    [|intros H; eapply frame_of_keeps, (real_keeps None), H].
  destruct (FdMgr w !! fd); cbn;
    [|intros H; eapply frame_of_keeps, (real_keeps None), H].
  destruct (iom w); cbn; intros H;
    (eapply frame_trans;
       [|eapply frame_of_keeps, (real_keeps None), H]);
    unfold frame; cbn; repeat split; intros fd' Hne;
    apply lookup_delete_ne, Hne.
Qed.

Lemma fcntl_frame fd cmd va w n w' :
  fcntl fd cmd va w = Some (n, w') → frame (eq fd) w w'.
Proof.
  unfold fcntl, FdMgr_get, FdCtx_update.
  destruct (cmd =? F_SETFL); [|destruct (cmd =? F_GETFL)].
  - run_hook. destruct (FdMgr w !! fd) as [ctx|]; cbn;
      [|intros H; eapply frame_of_keeps, (real_keeps None), H].
    destruct (isClose ctx || negb (isSocket ctx)); cbn;
      [intros H; eapply frame_of_keeps, (real_keeps None), H|].
    intros H. eapply frame_trans;
      [apply FdCtx_update_frame | eapply frame_of_keeps, (real_keeps None), H].
  - intros H. apply bind_Some in H as (arg & w1 & Hr & H).
    apply (real_keeps None), (frame_of_keeps (eq fd)) in Hr.
    revert H. run_hook. destruct (FdMgr w1 !! fd) as [ctx|]; cbn;
      [|intros [= <- <-]; exact Hr].
    destruct (isClose ctx || negb (isSocket ctx)); cbn;
      [intros [= <- <-]; exact Hr|].
    destruct (getUserNonblock ctx); intros [= <- <-]; exact Hr.
  - destruct (fcntl_int_arg cmd); [|destruct (fcntl_no_arg cmd);
      [|destruct (fcntl_flock_arg cmd); [|destruct (fcntl_owner_arg cmd)]]];
      intros H; eapply frame_of_keeps, (real_keeps None), H.
Qed.

Lemma ioctl_frame d request arg w n w' :
  ioctl d request arg w = Some (n, w') → frame (eq d) w w'.
Proof.
  unfold ioctl, FdMgr_get, FdCtx_update.
  destruct (request =? FIONBIO);
    [|intros H; eapply frame_of_keeps, (real_keeps None), H].
  run_hook. destruct (FdMgr w !! d) as [ctx|]; cbn;
    [|intros H; eapply frame_of_keeps, (real_keeps None), H].
  destruct (isClose ctx || negb (isSocket ctx)); cbn;
    [intros H; eapply frame_of_keeps, (real_keeps None), H|].
  intros H. eapply frame_trans;
    [apply FdCtx_update_frame | eapply frame_of_keeps, (real_keeps None), H].
Qed.

Lemma setsockopt_frame fd level optname tv optlen w n w' :
  setsockopt fd level optname tv optlen w = Some (n, w') →
  frame (eq fd) w w'.
Proof.
  unfold setsockopt, FdMgr_get, FdCtx_update. run_hook.
  destruct (t_hook_enable w); cbn;
    [|intros H; eapply frame_of_keeps, (real_keeps None), H].
  destruct (level =? SOL_SOCKET); cbn;
    [|intros H; eapply frame_of_keeps, (real_keeps None), H].
  destruct ((optname =? SO_RCVTIMEO) || (optname =? SO_SNDTIMEO)); cbn;
    [|intros H; eapply frame_of_keeps, (real_keeps None), H].
  destruct (FdMgr w !! fd); cbn;
    [|intros H; eapply frame_of_keeps, (real_keeps None), H].
  intros H. eapply frame_trans;
    [apply FdCtx_update_frame | eapply frame_of_keeps, (real_keeps None), H].
Qed.

Lemma socket_frame domain type protocol w n w' :
  socket domain type protocol w = Some (n, w') → frame (eq n) w w'.
Proof.
  unfold socket, mbind at 1, M_bind at 1, get_hook_enable.
  destruct (t_hook_enable w); cbn [negb];
    [|intros H; eapply frame_of_keeps, (real_keeps None), H].
  intros H. apply bind_Some in H as (fd & w1 & Hr & H).
  apply (real_keeps None), (frame_of_keeps (eq n)) in Hr.
  destruct (fd =? -1); [injection H as <- <-; exact Hr|].
  apply bind_Some in H as (c & w2 & Hc & [= <- <-]).
  eapply frame_trans; [exact Hr | eapply FdMgr_get_create_frame, Hc].
Qed.

Lemma accept_frame s addr addrlen w n w' :
  accept s addr addrlen w = Some (n, w') → frame (eq n) w w'.
Proof.
  unfold accept. intros H. apply bind_Some in H as (n0 & w1 & Hio & H).
  apply do_io_leaves_clean, (frame_of_clean (eq n)) in Hio.
  apply bind_Some in H as ([] & w2 & H & [= <- <-]).
  eapply frame_trans; [exact Hio|].
  destruct (0 <=? to_i32 n0); [|injection H as <-; apply frame_refl].
  apply bind_Some in H as (c & w3 & Hc & [= <-]).
  eapply FdMgr_get_create_frame, Hc.
Qed.

Lemma getsockopt_frame D fd level optname optval optlen w n w' :
  getsockopt fd level optname optval optlen w = Some (n, w') → frame D w w'.
Proof.
  unfold getsockopt, getsockopt_out. intros H.
  apply bind_Some in H as (r & w1 & Hs & [= <- <-]).
  eapply frame_of_keeps, (sys_keeps None), Hs.
Qed.

Lemma sleep_frame D seconds w n w' :
  sleep seconds w = Some (n, w') → frame D w w'.
Proof.
  unfold sleep, mbind at 1, M_bind at 1, get_hook_enable.
  destruct (t_hook_enable w); cbn [negb];
    [apply sleep_body_frame
    |intros H; eapply frame_of_keeps, (real_keeps None), H].
Qed.

Lemma usleep_frame D usec w n w' :
  usleep usec w = Some (n, w') → frame D w w'.
Proof.
  unfold usleep, mbind at 1, M_bind at 1, get_hook_enable.
  destruct (t_hook_enable w); cbn [negb];
    [apply sleep_body_frame
    |intros H; eapply frame_of_keeps, (real_keeps None), H].
Qed.

Lemma nanosleep_frame D req rem w n w' :
  nanosleep req rem w = Some (n, w') → frame D w w'.
Proof.
  unfold nanosleep, mbind at 1, M_bind at 1, get_hook_enable.
  destruct (t_hook_enable w); cbn [negb];
    [apply sleep_body_frame
    |intros H; eapply frame_of_keeps, (real_keeps None), H].
Qed.

(** X19: what a hook may touch.  Whatever the kernel, the IOManager and the
    scheduler answer, a hooked call that returns has not changed the hook
    flag of the thread, the connect timeout or the IOManager, and the
    [FdCtx] of every descriptor other than the one it names and the one it
    returns is as it was, present or absent. *)
Theorem hooks_touch_only_their_fd c w n w' :
  hooked c w = Some (n, w') →
  t_hook_enable w' = t_hook_enable w
  ∧ s_connect_timeout w' = s_connect_timeout w
  ∧ iom w' = iom w
  ∧ ∀ fd, hook_fd c ≠ Some fd → fd ≠ n → FdMgr w' !! fd = FdMgr w !! fd.
Proof.
  intros H.
  assert (Hf : frame (λ fd, hook_fd c = Some fd ∨ fd = n) w w').
  { destruct (blocking_io_call c) eqn:Hb.
    - apply frame_of_clean. revert H.
      destruct c; try discriminate Hb; cbn [hooked];
        unfold connect, read, readv, recv, recvfrom, recvmsg, write, writev,
          send, sendto, sendmsg;
        try apply do_io_leaves_clean.
      unfold mbind, M_bind, get_connect_timeout.
      apply connect_with_timeout_leaves_clean.
    - destruct c; try discriminate Hb; cbn [hooked hook_fd] in *.
      + eapply sleep_frame, H.
      + eapply usleep_frame, H.
      + eapply nanosleep_frame, H.
      + eapply frame_weaken; [|eapply socket_frame, H].
        intros fd <-. right. reflexivity.
      + eapply frame_weaken; [|eapply accept_frame, H].
        intros fd <-. right. reflexivity.
      + eapply frame_weaken; [|eapply close_frame, H].
        intros fd' <-. left. reflexivity.
      + eapply frame_weaken; [|eapply fcntl_frame, H].
        intros fd' <-. left. reflexivity.
      + eapply frame_weaken; [|eapply ioctl_frame, H].
        intros fd' <-. left. reflexivity.
      + eapply getsockopt_frame, H.
      + eapply frame_weaken; [|eapply setsockopt_frame, H].
        intros fd' <-. left. reflexivity. }
  destruct Hf as (He & Hc & Hi & Hfd). repeat split; try assumption.
  intros fd Hne Hn. apply Hfd. intros [Heq | Heq]; [apply Hne, Heq | apply Hn, Heq].
Qed.

Lemma hooks_touch_only_their_fd_witness :
  let w := sample_world {[3 := live_socket; 4 := live_socket]} [answer_ok 0] in
  ∃ w', hooked (call_close 3) w = Some (0, w')
        ∧ t_hook_enable w' = true
        ∧ FdMgr w' !! 4 = Some live_socket
        ∧ FdMgr w' !! 3 = None.
Proof.
  intros w. eexists. split; [vm_compute; reflexivity|].
  match goal with
  | |- t_hook_enable ?w' = _ ∧ _ =>
      destruct (hooks_touch_only_their_fd (call_close 3) w 0 w')
        as (Hen & _ & _ & Hfd); [vm_compute; reflexivity|]
  end.
  split; [exact Hen|]. split; [|reflexivity].
  rewrite Hfd; [reflexivity | cbn; congruence | discriminate].
Defined.

(** ** A timeout that fires late *)

(** X20: a late timeout is harmless.  The timeout lambda holds a [weak_ptr]
    to the [timer_info] of its call.  Once [do_io] or
    [connect_with_timeout] has returned, whatever the path, that
    [timer_info] is gone, and the lambda of that call, should it still run,
    changes nothing: no [cancelEvent], no write to [cancelled]. *)
Theorem late_timeout_is_harmless w n w' :
  tinfos w !! tinfo_next w = None →
  (∀ fd fn name ev so,
     do_io fd fn name ev so w = Some (n, w') →
     do_io_timeout_cb (tinfo_next w) fd ev w' = Some (tt, w'))
  ∧ (∀ fd addr addrlen timeout_ms,
       connect_with_timeout fd addr addrlen timeout_ms w = Some (n, w') →
       connect_timeout_cb (tinfo_next w) fd w' = Some (tt, w')).
Proof.
  intros Hfresh.
  assert (Hgone : leaves_clean w w' → tinfos w' !! tinfo_next w = None).
  { intros (_ & _ & _ & _ & _ & Hi).
    destruct (tinfos w' !! tinfo_next w) eqn:Hk; [|reflexivity].
    destruct (Hi (tinfo_next w)) as [x Hx]; [rewrite Hk; eauto|].
    congruence. }
  split.
  - intros fd fn name ev so Hrun.
    apply do_io_leaves_clean, Hgone in Hrun.
    unfold do_io_timeout_cb, tinfo_lock. run_hook. rewrite Hrun. reflexivity.
  - intros fd addr addrlen timeout_ms Hrun.
    apply connect_with_timeout_leaves_clean, Hgone in Hrun.
    unfold connect_timeout_cb, tinfo_lock. run_hook. rewrite Hrun.
    reflexivity.
Qed.

Lemma late_timeout_is_harmless_witness :
  let w := sample_world {[3 := live_socket]}
             [answer_err EAGAIN; AnsAddEvent 0; AnsWake []; answer_ok 7] in
  ∃ w', do_io 3 (λ fd, read_f fd 4096 16) "read" READ SO_RCVTIMEO w
        = Some (7, w')
        ∧ do_io_timeout_cb 0 3 READ w' = Some (tt, w').
Proof.
  intros w. eexists. split; [vm_compute; reflexivity|].
  match goal with
  | |- _ ?w' = _ =>
      apply (proj1 (late_timeout_is_harmless w 7 w' eq_refl) 3
               (λ fd, read_f fd 4096 16) "read" READ SO_RCVTIMEO)
  end.
  vm_compute. reflexivity.
Defined.
